(** * ftpserver2: the session core of the FTP server, embedded in Rocq

    The development follows the Go packages of the repository:

    - [Path]        : [clearPath] and [splitAndClearPath] of package [session];
    - [PortAssigner]: package [portassigner];
    - [DataChannel] : package [datachannel];
    - [Session]     : the command dispatch of [Session.Handle], the checks of
                      [cmdlist] and the handlers of [commands.go].

    Go strings are byte sequences and are modelled by [string]; Go's [int]
    and [int64] by [Z]; slices by [list]. *)

From Stdlib Require Import ZArith Lia Ascii String List Bool DecimalString.
From stdpp Require Import base list strings.

Local Open Scope list_scope.

(* ===================================================================== *)
(** ** The functions of package [strings] that the sources call *)
(* ===================================================================== *)

Module GoStrings.

(** [strings.Split(s, sep)] for a one-byte separator: the pieces between
    consecutive separators; [n] separators give [n+1] pieces, so the empty
    string gives one empty piece. *)
Fixpoint Split (s : string) (sep : ascii) : list string :=
  match s with
  | EmptyString => [EmptyString]
  | String c r =>
      if Ascii.eqb c sep then EmptyString :: Split r sep
      else match Split r sep with
           | [] => [String c EmptyString]
           | piece :: pieces => String c piece :: pieces
           end
  end.

(** [strings.Join(elems, sep)]. *)
Fixpoint Join (elems : list string) (sep : string) : string :=
  match elems with
  | [] => EmptyString
  | [x] => x
  | x :: rest => x +:+ sep +:+ Join rest sep
  end.

(** [c] occurs in [s]. *)
Fixpoint contains (c : ascii) (s : string) : bool :=
  match s with
  | EmptyString => false
  | String d r => Ascii.eqb d c || contains c r
  end.

End GoStrings.

(* ===================================================================== *)
(** ** Path normalizer ([clearPath], [splitAndClearPath]) *)
(* ===================================================================== *)

Module Path.
Import GoStrings.

Definition slash : ascii := "/"%char.
Definition dotdot : string := "..".

(** First loop of [splitAndClearPath]: keep the non-empty items. *)
Fixpoint nonEmpty (items : list string) : list string :=
  match items with
  | [] => []
  | item :: rest =>
      if String.eqb item "" then nonEmpty rest else item :: nonEmpty rest
  end.

(** Second loop of [splitAndClearPath],
    [for i := 0; i < len(toks)-1; i++ { ... }], with the index [i] and the
    accumulator [tmp]; [fuel] bounds the number of iterations ([len(toks)]
    is enough, the index grows at each one). [i < len(toks)-1] on Go's
    signed [int] is [i + 1 < len(toks)]. *)
Fixpoint collapseLoop (fuel : nat) (toks : list string) (i : nat)
    (tmp : list string) : list string :=
  match fuel with
  | O => tmp
  | S fuel' =>
      if (i + 1 <? length toks)%nat then
        if String.eqb (default "" (toks !! (i + 1)%nat)) dotdot
        then collapseLoop fuel' toks (i + 2) tmp            (* i++; continue *)
        else collapseLoop fuel' toks (i + 1)
               (tmp ++ [default "" (toks !! i)])
      else tmp
  end.

(** [toks] after the first loop: the non-empty segments of [s]. *)
Definition segments (s : string) : list string := nonEmpty (Split s slash).

Definition splitAndClearPath (s : string) : list string :=
  let toks := segments s in
  let tmp := collapseLoop (length toks) toks 0 [] in
  match last toks with
  | Some l => if negb (String.eqb l dotdot) then tmp ++ [l] else tmp
  | None => tmp
  end.

(** [clearPath]; [None] is the run-time panic of [s[0]] on the empty
    string (index out of range). *)
Definition clearPath (s : string) : option string :=
  if String.eqb s dotdot then Some s
  else
    let p := Join (splitAndClearPath s) "/" in
    match s with
    | EmptyString => None
    | String c _ =>
        if Ascii.eqb c slash then Some ("/" +:+ p)
        else if String.eqb p "" then Some "/"
        else Some p
    end.

(** The second loop as a recursion on the tokens that remain from the
    current index on. *)
Fixpoint pairs (rest : list string) : list string :=
  match rest with
  | x :: ((y :: rest') as tl) =>
      if String.eqb y dotdot then pairs rest' else x :: pairs tl
  | _ => []
  end.

(** What the final [if] of [splitAndClearPath] adds. *)
Definition lastKept (toks : list string) : list string :=
  match last toks with
  | Some l => if negb (String.eqb l dotdot) then [l] else []
  | None => []
  end.

Definition collapse (toks : list string) : list string :=
  pairs toks ++ lastKept toks.

(** A segment: not empty and without separator. *)
Definition segment (p : string) : Prop :=
  p <> "" /\ contains slash p = false.

(** Two consecutive segments are both [..]. *)
Fixpoint twoDotdots (toks : list string) : bool :=
  match toks with
  | x :: ((y :: _) as tl) =>
      (String.eqb x dotdot && String.eqb y dotdot) || twoDotdots tl
  | _ => false
  end.

End Path.

(* ===================================================================== *)
(** ** Results of Go calls *)
(* ===================================================================== *)

(** A Go [error] is represented by its message. *)
Definition error := string.

(** The pair [(value, error)] a Go function returns. *)
Inductive goerr (A : Type) : Type :=
  | Val (a : A)
  | Fail (e : error).
Arguments Val {A} a.
Arguments Fail {A} e.

(** How a call can fail to return: a run-time panic, or a channel
    operation that never completes. *)
Inductive abort : Type := Panic | Block.

Inductive outcome (A : Type) : Type :=
  | Done (a : A)
  | Aborted (why : abort).
Arguments Done {A} a.
Arguments Aborted {A} why.

(** [fmt.Sprintf("%d", n)]. *)
Definition itoa (n : Z) : string := NilZero.string_of_int (Z.to_int n).

Definition CRLF : string :=
  String (ascii_of_nat 13) (String (ascii_of_nat 10) EmptyString).
Definition quote : string := String (ascii_of_nat 34) EmptyString.

(* ===================================================================== *)
(** ** Package [portassigner] *)
(* ===================================================================== *)

Module PortAssigner.

Definition noMorePorts : Z := -1.

(** Modelled from the spec: the serializer [handler] (package
    [goserializer]) is not part of the sources; [handlerClosed] stands for
    it. After [Close] every method of the pool fails (the tests expect a
    panic). *)
Record paService : Type := mkPa {
  minPASVPort : Z;
  maxPASVPort : Z;
  cAssigned : list bool;
  free : Z;
  handlerClosed : bool
}.

(** [make([]bool, n)] panics for a negative [n]. *)
Definition New (minPort maxPort : Z) : outcome paService :=
  if (maxPort - minPort <? 0)%Z then Aborted Panic
  else Done {| minPASVPort := minPort;
               maxPASVPort := maxPort;
               cAssigned := replicate (Z.to_nat (maxPort - minPort)) false;
               free := maxPort - minPort;
               handlerClosed := false |}.

(** The [range] loop of [AssignPort] from slot [i] on: the first slot that
    is not in use and whose port passes the probe [net.Listen]
    ([netListen p = None] when the probe succeeds). *)
Fixpoint firstFree (netListen : Z -> option error) (minPort : Z) (i : nat)
    (slots : list bool) : option nat :=
  match slots with
  | [] => None
  | inUse :: rest =>
      if negb inUse && bool_decide (netListen (Z.of_nat i + minPort)%Z = None)
      then Some i
      else firstFree netListen minPort (S i) rest
  end.

Definition AssignPort (netListen : Z -> option error) (pa : paService)
    : outcome (paService * goerr Z) :=
  if handlerClosed pa then Aborted Panic
  else match firstFree netListen (minPASVPort pa) 0 (cAssigned pa) with
       | Some i =>
           Done (mkPa (minPASVPort pa) (maxPASVPort pa)
                      (<[i := true]> (cAssigned pa)) (free pa - 1)
                      (handlerClosed pa),
                 Val (Z.of_nat i + minPASVPort pa)%Z)
       | None => Done (pa, Fail "no more ports available")
       end.

(** [pa.cAssigned[port-pa.minPASVPort] = false; pa.free++]; the index is
    checked by the Go run time. *)
Definition ReleasePort (port : Z) (pa : paService) : outcome paService :=
  if handlerClosed pa then Aborted Panic
  else
    let idx := (port - minPASVPort pa)%Z in
    if (idx <? 0)%Z || (Z.of_nat (length (cAssigned pa)) <=? idx)%Z
    then Aborted Panic
    else Done (mkPa (minPASVPort pa) (maxPASVPort pa)
                    (<[Z.to_nat idx := false]> (cAssigned pa)) (free pa + 1)
                    (handlerClosed pa)).

Definition Close (pa : paService) : outcome paService :=
  if handlerClosed pa then Aborted Panic
  else Done (mkPa (minPASVPort pa) (maxPASVPort pa) (cAssigned pa) (free pa)
                  true).

End PortAssigner.

(* ===================================================================== *)
(** ** Package [datachannel] *)
(* ===================================================================== *)

Module DataChannel.
Import PortAssigner.

(** Capacity of [killChan]: [make(chan (bool), 100)]. *)
Definition killChanCap : nat := 100.

(** The struct [dataChannel]. The pool [pa] it points to is shared with
    the session and is passed to the operations that use it. A socket
    field is [true] when the Go field is not [nil]; [fncChan] is [true]
    once [Open] has made the channel; [killChan] is the number of values
    buffered in the channel. *)
Record dataChannel : Type := mkDc {
  cert : bool;
  port : Z;
  listener : bool;
  connection : bool;
  secureConnection : bool;
  encrypted : bool;
  fncChan : bool;
  killChan : nat
}.

Definition New (netListen : Z -> option error) (pa : paService)
    (hasCert : bool) (enc : bool) : outcome (paService * goerr dataChannel) :=
  match AssignPort netListen pa with
  | Aborted why => Aborted why
  | Done (pa', Fail e) => Done (pa', Fail e)
  | Done (pa', Val p) =>
      Done (pa', Val {| cert := hasCert; port := p; listener := false;
                        connection := false; secureConnection := false;
                        encrypted := enc; fncChan := false; killChan := 0 |})
  end.

Definition Port (dc : dataChannel) : Z := port dc.

Definition IsClosed (dc : dataChannel) : bool := (port dc =? 0)%Z.

Definition Encrypted (dc : dataChannel) : bool := encrypted dc.

Definition SetEncrypted (encrypt : bool) (dc : dataChannel) : dataChannel :=
  mkDc (cert dc) (port dc) (listener dc) (connection dc)
       (secureConnection dc) encrypt (fncChan dc) (killChan dc).

Definition ToPASVStringPort (dc : dataChannel) : string :=
  let iHigh := Z.shiftr (port dc) 8 in
  let iLow := (port dc - iHigh * 256)%Z in
  itoa iHigh +:+ "," +:+ itoa iLow.

(** [Open]: bind the listener ([netListen] gives the error of
    [net.Listen], if any), make [fncChan] and start the accepting task. *)
Definition Open (netListen : Z -> option error) (dc : dataChannel)
    : goerr dataChannel :=
  match netListen (port dc) with
  | Some e => Fail e
  | None => Val (mkDc (cert dc) (port dc) true (connection dc)
                      (secureConnection dc) (encrypted dc) true (killChan dc))
  end.

(** [Close]. The send on [killChan] blocks when the buffer is full (the
    values are only received by the accepting task, once); then the
    sockets are closed and, [if dc.port != 0], the port is released. *)
Definition Close (dc : dataChannel) (pa : paService)
    : outcome (dataChannel * paService) :=
  if (killChanCap <=? killChan dc)%nat then Aborted Block
  else
    let dc' := mkDc (cert dc) (port dc) false false false (encrypted dc)
                    (fncChan dc) (S (killChan dc)) in
    if negb (port dc =? 0)%Z then
      match ReleasePort (port dc) pa with
      | Done pa' => Done (dc', pa')
      | Aborted why => Aborted why
      end
    else Done (dc', pa).

End DataChannel.

(* ===================================================================== *)
(** ** Packages [identity] and [basicidentity] *)
(* ===================================================================== *)

Module BasicIdentity.

Record basicIdentity : Type := mkId {
  username : string;
  isAuthenticated : bool
}.

Definition New (name : string) (auth : bool) : basicIdentity := mkId name auth.
Definition Username (bid : basicIdentity) : string := username bid.
Definition SetUsername (name : string) (bid : basicIdentity) : basicIdentity :=
  mkId name (isAuthenticated bid).
Definition Authenticated (bid : basicIdentity) : bool := isAuthenticated bid.
Definition SetAuthenticated (auth : bool) (bid : basicIdentity) : basicIdentity :=
  mkId (username bid) auth.

End BasicIdentity.

(* ===================================================================== *)
(** ** Package [fs]: the interfaces the session consumes *)
(* ===================================================================== *)

Module FS.

(** What the session reads of a [File]. *)
Record File : Type := mkFile {
  Name : string;
  FullPath : string;
  Size : Z
}.

(** The interface [FileProvider]: [FP] is the state of the provider and
    of the store behind it; each method returns the new state with its
    result. [Delete] is the method of [File], which acts on the store.
    [Identity], [SetIdentity] and [Clone] are not called by the session.
    A method fails by returning an error; an implementation that panics
    is outside the interface. *)
Class FileProvider (FP : Type) : Type := {
  New : string -> bool -> FP -> FP * goerr File;
  Get : string -> FP -> FP * goerr File;
  List : FP -> FP * goerr (list File);
  CurrentDirectory : FP -> string;
  ChangeDirectory : string -> FP -> FP * option error;
  CreateDirectory : string -> FP -> FP * option error;
  RemoveDirectory : string -> FP -> FP * option error;
  Delete : File -> FP -> FP * option error
}.

End FS.

(* ===================================================================== *)
(** ** Package [securableConn] *)
(* ===================================================================== *)

Module SecurableConn.

(** [plain], [secure] and [cert] are [true] when the Go field is not
    [nil]; [bufw] is what has been written and flushed to the peer. *)
Record conn : Type := mkConn {
  secure : bool;
  cert : bool;
  plain : bool;
  bufw : list string
}.

Definition IsSecure (c : conn) : bool := secure c.

(** [SwitchToTLS] dereferences [c.cert]; it returns no error. *)
Definition SwitchToTLS (c : conn) : outcome conn :=
  if cert c then Done (mkConn true (cert c) (plain c) (bufw c))
  else Aborted Panic.

Definition WriteString (statement : string) (c : conn) : conn :=
  mkConn (secure c) (cert c) (plain c) (bufw c ++ [statement]).

Definition Close (c : conn) : conn :=
  mkConn false (cert c) false (bufw c).

End SecurableConn.

(* ===================================================================== *)
(** ** Library functions of Go used by the handlers *)
(* ===================================================================== *)

(** Result of [fmt.Sscanf] with one [*int64] operand: the value stored in
    the operand, if any, and the error. *)
Record scanned : Type := mkScanned {
  stored : option Z;
  scanErr : option error
}.

(** The parts of Go's library that are taken as given: the case mappings
    of package [strings], and [fmt.Sscanf] on formats that are not made
    of plain literal bytes (verbs, white space, bytes outside ASCII). *)
Class GoLib : Type := {
  ToLower : string -> string;
  ToUpper : string -> string;
  fmtSscanf : string -> string -> scanned
}.

Module Fmt.

(** A format byte that [Sscanf] matches literally against the input:
    printable ASCII other than the space and ['%']. *)
Definition literalByte (c : ascii) : bool :=
  let n := nat_of_ascii c in
  (33 <=? n)%nat && (n <=? 126)%nat && negb (Ascii.eqb c "%"%char).

Fixpoint literalFormat (format : string) : bool :=
  match format with
  | EmptyString => true
  | String c r => literalByte c && literalFormat r
  end.

(** [advance] on a literal format: each byte of the format must be the
    next byte of the input. *)
Fixpoint matchLiteral (format input : string) : option error :=
  match format with
  | EmptyString => None
  | String fmtc frest =>
      match input with
      | EmptyString => Some "unexpected EOF"
      | String inputc irest =>
          if Ascii.eqb fmtc inputc then matchLiteral frest irest
          else Some "input does not match format"
      end
  end.

(** A decimal numeral: one or more of the digits [0] to [9]. *)
Definition isDigit (c : ascii) : bool :=
  let n := nat_of_ascii c in (48 <=? n)%nat && (n <=? 57)%nat.

Fixpoint allDigits (s : string) : bool :=
  match s with
  | EmptyString => true
  | String c r => isDigit c && allDigits r
  end.

Definition decimal (s : string) : bool :=
  negb (String.eqb s "") && allDigits s.

(** [fmt.Sscanf(str, format, &v)] with [v] an [int64]. A literal format
    has no verb, so the operand is never processed: when the literals
    match, the call fails with [too many operands]. *)
Definition Sscanf `{GoLib} (str format : string) : scanned :=
  if literalFormat format then
    match matchLiteral format str with
    | Some e => mkScanned None (Some e)
    | None => mkScanned None (Some "too many operands")
    end
  else fmtSscanf str format.

End Fmt.

(* ===================================================================== *)
(** ** Package [session] *)
(* ===================================================================== *)

Module Session.
Import GoStrings Path BasicIdentity FS SecurableConn.
Import PortAssigner(paService).
Import DataChannel(dataChannel).

(** What the operating system answers during one command: the address
    found by [getLocalIP], and the error of [net.Listen] on a port, if
    any, for the probe of the pool and for [Open]. *)
Record World : Type := mkWorld {
  getLocalIP : goerr string;
  probeListen : Z -> option error;
  openListen : Z -> option error
}.

(** The routine a handler passes to [Sink], by what it captures. It runs
    on the task of the data channel, which is not part of this model. *)
Inductive transfer : Type :=
  | SendFile (f : File) (rest : Z)
  | ReceiveFile (f : File)
  | SendListing (files : list File)
  | SendNames (files : list File).

Section WithProvider.
Context {FP : Type} `{FileProvider FP} `{GoLib}.

(** The struct [Session]. [lastReceivedCommand] and [connectionTimeout]
    are only written. [sunk] lists the data channels handed to their task
    with a transfer routine. *)
Record Session : Type := mkSession {
  conn : SecurableConn.conn;
  cert : bool;
  id : basicIdentity;
  pa : paService;
  lastDataChanneler : option dataChannel;
  authFunc : string -> string -> bool;
  fileProvider : FP;
  dataChannelEncryption : bool;
  lastREST : Z;
  sunk : list (dataChannel * transfer)
}.

Definition New (c : SecurableConn.conn) (hasCert : bool) (pool : paService)
    (auth : string -> string -> bool) (fp : FP) : Session :=
  {| conn := c; cert := hasCert; id := BasicIdentity.New "" false;
     pa := pool; lastDataChanneler := None; authFunc := auth;
     fileProvider := fp; dataChannelEncryption := false; lastREST := 0;
     sunk := [] |}.

Definition setConn (v : SecurableConn.conn) (s : Session) : Session :=
  mkSession v (cert s) (id s) (pa s) (lastDataChanneler s) (authFunc s)
            (fileProvider s) (dataChannelEncryption s) (lastREST s) (sunk s).
Definition setId (v : basicIdentity) (s : Session) : Session :=
  mkSession (conn s) (cert s) v (pa s) (lastDataChanneler s) (authFunc s)
            (fileProvider s) (dataChannelEncryption s) (lastREST s) (sunk s).
Definition setPa (v : paService) (s : Session) : Session :=
  mkSession (conn s) (cert s) (id s) v (lastDataChanneler s) (authFunc s)
            (fileProvider s) (dataChannelEncryption s) (lastREST s) (sunk s).
Definition setLastDataChanneler (v : option dataChannel) (s : Session)
    : Session :=
  mkSession (conn s) (cert s) (id s) (pa s) v (authFunc s)
            (fileProvider s) (dataChannelEncryption s) (lastREST s) (sunk s).
Definition setFileProvider (v : FP) (s : Session) : Session :=
  mkSession (conn s) (cert s) (id s) (pa s) (lastDataChanneler s) (authFunc s)
            v (dataChannelEncryption s) (lastREST s) (sunk s).
Definition setDataChannelEncryption (v : bool) (s : Session) : Session :=
  mkSession (conn s) (cert s) (id s) (pa s) (lastDataChanneler s) (authFunc s)
            (fileProvider s) v (lastREST s) (sunk s).
Definition setLastREST (v : Z) (s : Session) : Session :=
  mkSession (conn s) (cert s) (id s) (pa s) (lastDataChanneler s) (authFunc s)
            (fileProvider s) (dataChannelEncryption s) v (sunk s).
Definition setSunk (v : list (dataChannel * transfer)) (s : Session)
    : Session :=
  mkSession (conn s) (cert s) (id s) (pa s) (lastDataChanneler s) (authFunc s)
            (fileProvider s) (dataChannelEncryption s) (lastREST s) v.

(** *** The methods of a session as state transformers

    A method runs on the session and either returns or aborts; the
    session is kept as it was at the point of the abort. *)
Definition M (A : Type) : Type := Session -> Session * outcome A.

Definition ret {A} (a : A) : M A := fun s => (s, Done a).

Definition bind {A B} (m : M A) (k : A -> M B) : M B :=
  fun s => match m s with
           | (s', Done a) => k a s'
           | (s', Aborted why) => (s', Aborted why)
           end.

Definition gets {A} (f : Session -> A) : M A := fun s => (s, Done (f s)).
Definition modify (f : Session -> Session) : M unit := fun s => (f s, Done tt).
Definition abortWith {A} (why : abort) : M A := fun s => (s, Aborted why).

(** [xs[i]], checked by the run time. *)
Definition index (xs : list string) (i : nat) : M string :=
  match xs !! i with
  | Some x => ret x
  | None => abortWith Panic
  end.

(** A call of a method of the file provider. *)
Definition provider {A} (op : FP -> FP * A) : M A :=
  fun s => let '(fp, a) := op (fileProvider s) in
           (setFileProvider fp s, Done a).

Notation "'let*' x := m 'in' k" := (bind m (fun x => k))
  (at level 10, x name, m at level 100, k at level 200).
Notation "m ;;; k" := (bind m (fun _ => k))
  (at level 100, k at level 200, right associativity).

(** [sendStatement]: [statement[len(statement)-2:]] needs two bytes; write
    errors are logged and ignored. *)
Definition sendStatement (statement : string) : M unit :=
  let n := String.length statement in
  if (n <? 2)%nat then abortWith Panic
  else
    let line :=
      if String.eqb (substring (n - 2) 2 statement) CRLF then statement
      else statement +:+ CRLF in
    modify (fun s => setConn (WriteString line (conn s)) s).

(** [dc.Close()] on a channel of this session: the pool is the session's. *)
Definition closeChannel (dc : dataChannel) : M dataChannel :=
  fun s => match DataChannel.Close dc (pa s) with
           | Done (dc', pa') => (setPa pa' s, Done dc')
           | Aborted why => (s, Aborted why)
           end.

(** [dc.Sink(f)] with [dc := ses.lastDataChanneler], a method call on a
    [nil] interface when there is none. The send on [fncChan] never
    completes on a channel that was not opened. *)
Definition Sink (dc : option dataChannel) (f : transfer) : M unit :=
  match dc with
  | None => abortWith Panic
  | Some d =>
      if DataChannel.fncChan d then modify (fun s => setSunk (sunk s ++ [(d, f)]) s)
      else abortWith Block
  end.

(** [Close]. *)
Definition Close : M unit :=
  modify (fun s => setConn (SecurableConn.Close (conn s)) s) ;;;
  let* dco := gets lastDataChanneler in
  match dco with
  | Some dc =>
      if negb (DataChannel.IsClosed dc) then
        let* dc' := closeChannel dc in
        modify (setLastDataChanneler (Some dc'))
      else ret tt
  | None => ret tt
  end.

(** [ses.lastDataChanneler, err = datachannel.New(ses.pa, ses.cert,
    ses.dataChannelEncryption)]. *)
Definition newChannel (w : World) : M (option error) :=
  fun s =>
    match DataChannel.New (probeListen w) (pa s) (cert s)
            (dataChannelEncryption s) with
    | Aborted why => (s, Aborted why)
    | Done (pa', Val dc) =>
        (setLastDataChanneler (Some dc) (setPa pa' s), Done None)
    | Done (pa', Fail e) =>
        (setLastDataChanneler None (setPa pa' s), Done (Some e))
    end.

(** [ses.conn.SwitchToTLS()]. *)
Definition switchToTLS : M unit :=
  fun s => match SwitchToTLS (conn s) with
           | Done c => (setConn c s, Done tt)
           | Aborted why => (s, Aborted why)
           end.

(** [retrievePassivePort]. *)
Definition retrievePassivePort (w : World) : M (option error) :=
  let* dco := gets lastDataChanneler in
  match dco with
  | Some dc => closeChannel dc ;;; modify (setLastDataChanneler None)
  | None => ret tt
  end ;;;
  newChannel w.

(** [ses.lastDataChanneler.Open()]. *)
Definition openLast (w : World) : M (option error) :=
  let* dco := gets lastDataChanneler in
  match dco with
  | None => abortWith Panic
  | Some dc =>
      match DataChannel.Open (openListen w) dc with
      | Val dc' => modify (setLastDataChanneler (Some dc')) ;;; ret None
      | Fail e => ret (Some e)
      end
  end.

(** *** The command table of [session.go] *)

Definition USER := 0%nat.
Definition PASS := 1%nat.
Definition PWD := 2%nat.
Definition TYPE := 3%nat.
Definition PASV := 4%nat.
Definition EPSV := 5%nat.
Definition LIST := 6%nat.
Definition SYST := 7%nat.
Definition CWD := 8%nat.
Definition CDUP := 9%nat.
Definition SIZE := 10%nat.
Definition RETR := 11%nat.
Definition STOR := 12%nat.
Definition DELE := 13%nat.
Definition FEAT := 14%nat.
Definition QUIT := 15%nat.
Definition NOOP := 16%nat.
Definition MKD := 17%nat.
Definition RMD := 18%nat.
Definition REST := 19%nat.
Definition NLST := 20%nat.

Definition commands : list string :=
  [ "USER"; "PASS"; "PWD"; "TYPE"; "PASV"; "EPSV"; "LIST"; "SYST"; "CWD";
    "CDUP"; "SIZE"; "RETR"; "STOR"; "DELE"; "FEAT"; "QUIT"; "NOOP"; "MKD";
    "RMD"; "REST"; "NLST" ].

(** [commands[c]]. *)
Definition command (c : nat) : string := default "" (commands !! c).

(** *** The handlers of [commands.go] *)

Definition processEntry : Type := list string -> M bool.

Definition processSYST (tokens : list string) : M bool :=
  sendStatement "215 UNIX Type: L8" ;;; ret false.

Definition processQUIT (tokens : list string) : M bool :=
  sendStatement "221 Goodbye." ;;; ret true.

Definition processNOOP (tokens : list string) : M bool :=
  sendStatement "200 NOOP ok." ;;; ret false.

Definition processFEAT (tokens : list string) : M bool :=
  let* s := gets (fun s => s) in
  let buf := "211-Features:" +:+ CRLF in
  let buf := fold_left (fun b cmd => b +:+ " " +:+ cmd +:+ CRLF) commands buf in
  let buf :=
    if cert s && negb (IsSecure (conn s)) then buf +:+ " AUTH" +:+ CRLF
    else buf in
  sendStatement (buf +:+ "211 End") ;;; ret false.

Definition processPWD (tokens : list string) : M bool :=
  let* cwd := gets (fun s => CurrentDirectory (fileProvider s)) in
  sendStatement ("257 " +:+ quote +:+ cwd +:+ quote) ;;; ret false.

(** [clearPath] inside a handler. *)
Definition cleared (s : string) : M string :=
  match clearPath s with
  | Some p => ret p
  | None => abortWith Panic
  end.

Definition processCWD (tokens : list string) : M bool :=
  if (length tokens <? 2)%nat then
    sendStatement "550 Failed to change directory" ;;; ret false
  else
    let* path := cleared (Join (drop 1 tokens) " ") in
    let* err := provider (ChangeDirectory path) in
    match err with
    | Some _ => sendStatement "550 Failed to change directory" ;;; ret false
    | None => sendStatement "250 Directory successfully changed" ;;; ret false
    end.

Definition processCDUP (tokens : list string) : M bool :=
  processCWD ["CWD"; ".."].

Definition processRETR (tokens : list string) : M bool :=
  let* rest := gets lastREST in
  modify (setLastREST 0) ;;;
  if (length tokens <? 2)%nat then
    sendStatement "501 object needed!" ;;; ret false
  else
    let* file := cleared (Join (drop 1 tokens) " ") in
    let* r := provider (Get file) in
    match r with
    | Fail err =>
        sendStatement ("550 Could not get file: " +:+ err +:+ ".") ;;; ret false
    | Val f =>
        let* dc := gets lastDataChanneler in
        modify (setLastDataChanneler None) ;;;
        Sink dc (SendFile f rest) ;;;
        ret false
    end.

Definition processSTOR (tokens : list string) : M bool :=
  if (length tokens <? 2)%nat then
    sendStatement "501 object needed!" ;;; ret false
  else
    let* r := provider (FS.New (Join (drop 1 tokens) " ") false) in
    match r with
    | Fail err =>
        sendStatement ("550 Could not create file file: " +:+ err +:+ ".") ;;;
        ret false
    | Val f =>
        let* dc := gets lastDataChanneler in
        modify (setLastDataChanneler None) ;;;
        Sink dc (ReceiveFile f) ;;;
        ret false
    end.

Definition processLIST (tokens : list string) : M bool :=
  let* lastCWD := gets (fun s => CurrentDirectory (fileProvider s)) in
  let* err :=
    (if (1 <? length tokens)%nat then
       let* arg := index tokens 1 in provider (ChangeDirectory arg)
     else ret None) in
  match err with
  | Some e =>
      sendStatement ("451 cannot retrieve directory list: " +:+ e) ;;; ret false
  | None =>
      let* r := provider List in
      match r with
      | Fail e =>
          sendStatement ("451 cannot retrieve directory list: " +:+ e) ;;;
          ret false
      | Val files =>
          let* err :=
            (if (1 <? length tokens)%nat then provider (ChangeDirectory lastCWD)
             else ret None) in
          match err with
          | Some e =>
              sendStatement ("451 cannot retrieve directory list: " +:+ e) ;;;
              ret false
          | None =>
              let* dc := gets lastDataChanneler in
              modify (setLastDataChanneler None) ;;;
              Sink dc (SendListing files) ;;;
              ret false
          end
      end
  end.

Definition processNLST (tokens : list string) : M bool :=
  let* lastCWD := gets (fun s => CurrentDirectory (fileProvider s)) in
  let* err :=
    (if (1 <? length tokens)%nat then
       let* arg := index tokens 1 in provider (ChangeDirectory arg)
     else ret None) in
  match err with
  | Some e =>
      sendStatement ("451 cannot retrieve directory list: " +:+ e) ;;; ret false
  | None =>
      let* r := provider List in
      match r with
      | Fail e =>
          sendStatement ("451 cannot retrieve directory list: " +:+ e) ;;;
          ret false
      | Val files =>
          let* err :=
            (if (1 <? length tokens)%nat then provider (ChangeDirectory lastCWD)
             else ret None) in
          match err with
          | Some e =>
              sendStatement ("451 cannot retrieve directory list: " +:+ e) ;;;
              ret false
          | None =>
              let* dc := gets lastDataChanneler in
              modify (setLastDataChanneler None) ;;;
              Sink dc (SendNames files) ;;;
              ret false
          end
      end
  end.

Definition processUSER (tokens : list string) : M bool :=
  if (length tokens <? 2)%nat then
    sendStatement "501 user needed!" ;;; ret false
  else
    let* name := index tokens 1 in
    modify (fun s => setId (SetUsername name (id s)) s) ;;;
    let* u := gets (fun s => Username (id s)) in
    sendStatement ("331 Password required for " +:+ u +:+ ".") ;;; ret false.

Definition processPASS (tokens : list string) : M bool :=
  if (length tokens <? 2)%nat then
    sendStatement "501 password needed!" ;;; ret false
  else
    let* password := index tokens 1 in
    let* ok := gets (fun s => authFunc s (Username (id s)) password) in
    if negb ok then
      modify (fun s => setId (SetAuthenticated false (id s)) s) ;;;
      modify (fun s => setId (SetUsername "" (id s)) s) ;;;
      sendStatement "530 Password Rejected" ;;; ret false
    else
      modify (fun s => setId (SetAuthenticated true (id s)) s) ;;;
      let* u := gets (fun s => Username (id s)) in
      sendStatement ("230 User " +:+ u +:+ " logged in.") ;;; ret false.

(** [strings.Replace(s, ".", ",", -1)]. *)
Fixpoint dotsToCommas (s : string) : string :=
  match s with
  | EmptyString => EmptyString
  | String c r =>
      String (if Ascii.eqb c "."%char then ","%char else c) (dotsToCommas r)
  end.

Definition processPASV (w : World) (tokens : list string) : M bool :=
  match getLocalIP w with
  | Fail e => sendStatement ("550 Could not get local IP: " +:+ e) ;;; ret false
  | Val ip =>
      let* err := retrievePassivePort w in
      match err with
      | Some e =>
          sendStatement ("550 Could not allocate passive port: " +:+ e) ;;;
          ret false
      | None =>
          let s := dotsToCommas ip in
          let* err := openLast w in
          match err with
          | Some e =>
              sendStatement ("550 Could not open passive port: " +:+ e) ;;;
              ret false
          | None =>
              let* dco := gets lastDataChanneler in
              match dco with
              | None => abortWith Panic
              | Some dc =>
                  sendStatement (itoa 227 +:+ " Entering Passive Mode (" +:+ s
                                 +:+ "," +:+ DataChannel.ToPASVStringPort dc
                                 +:+ ")") ;;;
                  ret false
              end
          end
      end
  end.

Definition processEPSV (w : World) (tokens : list string) : M bool :=
  let* err := retrievePassivePort w in
  match err with
  | Some e =>
      sendStatement ("550 Could not allocate passive port: " +:+ e) ;;;
      ret false
  | None =>
      let* err := openLast w in
      match err with
      | Some e =>
          sendStatement ("550 Could not open passive port: " +:+ e) ;;;
          ret false
      | None =>
          let* dco := gets lastDataChanneler in
          match dco with
          | None => abortWith Panic
          | Some dc =>
              sendStatement ("229 Entering Extended Passive Mode (|||"
                             +:+ itoa (DataChannel.Port dc) +:+ "|)") ;;;
              ret false
          end
      end
  end.

Definition processTYPE (tokens : list string) : M bool :=
  if (length tokens <? 2)%nat then
    sendStatement "501 type needed!" ;;; ret false
  else
    let* t := index tokens 1 in
    if negb (String.eqb (ToLower t) "i") && negb (String.eqb (ToLower t) "a")
    then
      sendStatement ("504 Type I and A are the only one supported. " +:+ t
                     +:+ " is not supported at this time") ;;;
      ret false
    else sendStatement ("200 Type set to " +:+ ToUpper t) ;;; ret false.

Definition processSIZE (tokens : list string) : M bool :=
  if (length tokens <? 2)%nat then
    sendStatement "501 object needed!" ;;; ret false
  else
    let* file := cleared (Join (drop 1 tokens) " ") in
    let* r := provider (Get file) in
    match r with
    | Fail err =>
        sendStatement ("550 Could not get file: " +:+ err +:+ ".") ;;; ret false
    | Val f => sendStatement ("213 " +:+ itoa (Size f)) ;;; ret false
    end.

Definition processMKD (tokens : list string) : M bool :=
  if (length tokens <? 1)%nat then
    sendStatement "501 folder name needed" ;;; ret false
  else
    let path := Join (drop 1 tokens) " " in
    let* err := provider (CreateDirectory path) in
    match err with
    | Some e =>
        sendStatement ("550 cannot create folder " +:+ path +:+ " (" +:+ e
                       +:+ ")") ;;;
        ret false
    | None =>
        let* r := provider (Get path) in
        match r with
        | Fail e =>
            sendStatement ("550 cannot create folder " +:+ path +:+ " (" +:+ e
                           +:+ ")") ;;;
            ret false
        | Val dir =>
            sendStatement ("257 " +:+ quote +:+ FullPath dir +:+ quote
                           +:+ " directory created") ;;;
            ret false
        end
    end.

Definition processRMD (tokens : list string) : M bool :=
  if (length tokens <? 1)%nat then
    sendStatement "501 folder name needed" ;;; ret false
  else
    let* err := provider (RemoveDirectory (Join (drop 1 tokens) " ")) in
    match err with
    | Some e =>
        let* t := index tokens 1 in
        sendStatement ("550 cannot delete folder " +:+ t +:+ " (" +:+ e
                       +:+ ")") ;;;
        ret false
    | None => sendStatement "250 folder deleted successfully" ;;; ret false
    end.

Definition processDELE (tokens : list string) : M bool :=
  if (length tokens <? 1)%nat then
    sendStatement "501 file name needed" ;;; ret false
  else
    let* r := provider (Get (Join (drop 1 tokens) " ")) in
    match r with
    | Fail e =>
        let* t := index tokens 1 in
        sendStatement ("550 cannot delete file " +:+ t +:+ " (" +:+ e
                       +:+ ")") ;;;
        ret false
    | Val f =>
        let* err := provider (Delete f) in
        match err with
        | Some e =>
            let* t := index tokens 1 in
            sendStatement ("550 cannot delete file " +:+ t +:+ " (" +:+ e
                           +:+ ")") ;;;
            ret false
        | None => sendStatement "200 file delete successfully" ;;; ret false
        end
    end.

(** [processREST]: the call is [fmt.Sscanf("%d", tokens[1], &ses.lastREST)],
    the scanned string first and the format second. *)
Definition processREST (tokens : list string) : M bool :=
  if (length tokens <? 1)%nat then
    sendStatement "501 size needed" ;;; ret false
  else
    let* t := index tokens 1 in
    let r := Fmt.Sscanf "%d" t in
    match stored r with
    | Some v => modify (setLastREST v)
    | None => ret tt
    end ;;;
    match scanErr r with
    | Some e => sendStatement ("550 syntax error (" +:+ e +:+ ")") ;;; ret false
    | None => sendStatement "350 start position moved successfully" ;;; ret false
    end.

Definition processAUTH (tokens : list string) : M bool :=
  let* s := gets (fun s => s) in
  if negb (cert s) || IsSecure (conn s) then
    sendStatement "502 not supported" ;;; ret false
  else if (length tokens <? 2)%nat then
    sendStatement "550 must specify protocol!" ;;; ret false
  else
    let* t := index tokens 1 in
    if negb (String.eqb t "TLS") then
      let* t0 := index tokens 0 in
      sendStatement ("503 " +:+ t0 +:+ " is not supported") ;;; ret false
    else
      sendStatement "234 Using authentication type TLS" ;;;
      switchToTLS ;;;
      ret false.

Definition processPROT (tokens : list string) : M bool :=
  let* sec := gets (fun s => IsSecure (conn s)) in
  if negb sec then sendStatement "502 not supported" ;;; ret false
  else if (length tokens <? 2)%nat then
    sendStatement "550 must specify protection level!" ;;; ret false
  else
    let* t := index tokens 1 in
    let protLevel := ToUpper t in
    if String.eqb protLevel "P" then
      modify (setDataChannelEncryption true) ;;;
      modify (fun s => setLastDataChanneler
                         (DataChannel.SetEncrypted true <$> lastDataChanneler s) s) ;;;
      sendStatement "200 data channel TLS encryption enabled" ;;; ret false
    else if String.eqb protLevel "C" then
      modify (setDataChannelEncryption false) ;;;
      modify (fun s => setLastDataChanneler
                         (DataChannel.SetEncrypted false <$> lastDataChanneler s) s) ;;;
      sendStatement "200 data channel TLS encryption disabled" ;;; ret false
    else sendStatement ("550 " +:+ protLevel +:+ " is not supported") ;;; ret false.

(** *** [cmdlist.go]: the checks that gate a handler *)

Record cmdlist : Type := mkCmd {
  tokens : list string;
  pe : option processEntry
}.

Definition newCmdList (toks : list string) (entry : processEntry) : M cmdlist :=
  ret (mkCmd toks (Some entry)).

Definition requireAuth (cmd : cmdlist) : M cmdlist :=
  match pe cmd with
  | None => ret cmd
  | Some _ =>
      let* auth := gets (fun s => Authenticated (id s)) in
      if negb auth then
        sendStatement "530 Please login with USER and PASS." ;;;
        ret (mkCmd (tokens cmd) None)
      else ret cmd
  end.

Definition requirePASV (cmd : cmdlist) : M cmdlist :=
  match pe cmd with
  | None => ret cmd
  | Some _ =>
      let* dco := gets lastDataChanneler in
      if match dco with
         | None => true
         | Some dc => DataChannel.IsClosed dc
         end
      then
        sendStatement "425 Use PASV or EPSV first" ;;;
        ret (mkCmd (tokens cmd) None)
      else ret cmd
  end.

Definition resetREST (cmd : cmdlist) : M cmdlist :=
  modify (setLastREST 0) ;;; ret cmd.

Definition resetUSER (cmd : cmdlist) : M cmdlist :=
  let* auth := gets (fun s => Authenticated (id s)) in
  (if negb auth then modify (fun s => setId (SetUsername "" (id s)) s)
   else ret tt) ;;;
  ret cmd.

Definition Execute (cmd : cmdlist) : M bool :=
  match pe cmd with
  | None => ret false
  | Some entry => entry (tokens cmd)
  end.

(** Method chaining, [c.requireAuth().resetUSER()...]. *)
Notation "c ~> f" := (bind c f) (at level 50, left associativity).

(** *** [Handle]: the [switch] on [tokens[0]] and the command loop *)

(** The body of the loop of [Handle] for one command, already split into
    its fields; the result is [terminateProcessing]. A line without fields
    is skipped. *)
Definition dispatch (w : World) (toks : list string) : M bool :=
  match toks with
  | [] => ret false
  | tok0 :: _ =>
      let tokIs name := String.eqb tok0 name in
      if tokIs (command USER) then
        newCmdList toks processUSER ~> resetREST ~> Execute
      else if tokIs (command PASS) then
        newCmdList toks processPASS ~> resetREST ~> Execute
      else if tokIs (command PWD) then
        newCmdList toks processPWD ~> requireAuth ~> resetUSER ~> resetREST ~> Execute
      else if tokIs (command TYPE) then
        newCmdList toks processTYPE ~> requireAuth ~> resetUSER ~> resetREST ~> Execute
      else if tokIs (command PASV) then
        newCmdList toks (processPASV w) ~> requireAuth ~> resetUSER ~> resetREST ~> Execute
      else if tokIs (command EPSV) then
        newCmdList toks (processEPSV w) ~> requireAuth ~> resetUSER ~> resetREST ~> Execute
      else if tokIs (command LIST) then
        newCmdList toks processLIST ~> requireAuth ~> requirePASV ~> resetUSER ~> resetREST ~> Execute
      else if tokIs (command SYST) then
        newCmdList toks processSYST ~> resetUSER ~> resetREST ~> Execute
      else if tokIs (command CWD) then
        newCmdList toks processCWD ~> requireAuth ~> resetUSER ~> resetREST ~> Execute
      else if tokIs (command CDUP) then
        newCmdList toks processCDUP ~> requireAuth ~> resetUSER ~> resetREST ~> Execute
      else if tokIs (command SIZE) then
        newCmdList toks processSIZE ~> requireAuth ~> resetUSER ~> resetREST ~> Execute
      else if tokIs (command RETR) then
        newCmdList toks processRETR ~> requireAuth ~> resetUSER ~> requirePASV ~> Execute
      else if tokIs (command STOR) then
        newCmdList toks processSTOR ~> requireAuth ~> resetUSER ~> resetREST ~> requirePASV ~> Execute
      else if tokIs (command FEAT) then
        newCmdList toks processFEAT ~> requireAuth ~> resetUSER ~> resetREST ~> Execute
      else if tokIs (command QUIT) then
        newCmdList toks processQUIT ~> resetUSER ~> resetREST ~> Execute
      else if tokIs (command NOOP) then
        newCmdList toks processNOOP ~> resetUSER ~> resetREST ~> Execute
      else if tokIs (command MKD) then
        newCmdList toks processMKD ~> requireAuth ~> resetUSER ~> resetREST ~> Execute
      else if tokIs (command RMD) then
        newCmdList toks processRMD ~> requireAuth ~> resetUSER ~> resetREST ~> Execute
      else if tokIs (command DELE) then
        newCmdList toks processDELE ~> requireAuth ~> resetUSER ~> resetREST ~> Execute
      else if tokIs (command REST) then
        newCmdList toks processREST ~> requireAuth ~> requirePASV ~> resetUSER ~> resetREST ~> Execute
      else if tokIs (command NLST) then
        newCmdList toks processNLST ~> requireAuth ~> requirePASV ~> resetUSER ~> resetREST ~> Execute
      else if tokIs "AUTH" then
        newCmdList toks processAUTH ~> resetUSER ~> resetREST ~> Execute
      else if tokIs "PROT" then
        newCmdList toks processPROT ~> requireAuth ~> resetUSER ~> resetREST ~> Execute
      else sendStatement "502 not implemented" ;;; ret false
  end.

(** The loop of [Handle] over the commands read from the control
    connection, each with the answers of the operating system while it is
    handled; the end of the list is the end of the connection. *)
Fixpoint commandLoop (input : list (World * list string)) : M unit :=
  match input with
  | [] => ret tt
  | (w, toks) :: rest =>
      let* terminateProcessing := dispatch w toks in
      if terminateProcessing then ret tt else commandLoop rest
  end.

Definition Handle (input : list (World * list string)) : M unit :=
  sendStatement "200 GOlang FTP Server welcomes you!" ;;; commandLoop input.

(** *** Vocabulary of the properties *)

(** The commands whose pipeline in [Handle] has [requireAuth], and those
    whose pipeline has not. *)
Definition authCommands : list string :=
  [ "PWD"; "TYPE"; "PASV"; "EPSV"; "LIST"; "CWD"; "CDUP"; "SIZE"; "RETR";
    "STOR"; "FEAT"; "MKD"; "RMD"; "DELE"; "REST"; "NLST"; "PROT" ].

Definition openCommands : list string :=
  [ "USER"; "PASS"; "QUIT"; "NOOP"; "SYST"; "AUTH" ].

(** The handler of a command without [requireAuth], and the resets that
    run before it. *)
Definition openHandler (tok : string) : processEntry :=
  if String.eqb tok "USER" then processUSER
  else if String.eqb tok "PASS" then processPASS
  else if String.eqb tok "QUIT" then processQUIT
  else if String.eqb tok "NOOP" then processNOOP
  else if String.eqb tok "SYST" then processSYST
  else processAUTH.

Definition openResets (tok : string) : M unit :=
  if String.eqb tok "USER" || String.eqb tok "PASS" then
    modify (setLastREST 0)
  else
    let* auth := gets (fun s => Authenticated (id s)) in
    (if negb auth then modify (fun s => setId (SetUsername "" (id s)) s)
     else ret tt) ;;;
    modify (setLastREST 0).

(** What only a handler changes: [s'] has the provider, the data channel,
    the pool, the transfers, the encryption flags and the authentication
    of [s]. *)
Definition handlerFrame (s s' : Session) : Prop :=
  fileProvider s' = fileProvider s /\
  lastDataChanneler s' = lastDataChanneler s /\
  pa s' = pa s /\
  sunk s' = sunk s /\
  dataChannelEncryption s' = dataChannelEncryption s /\
  IsSecure (conn s') = IsSecure (conn s) /\
  Authenticated (id s') = Authenticated (id s).

(** A method keeps an authenticated session authenticated. *)
Definition authInv {A} (m : M A) : Prop :=
  forall s, Authenticated (id s) = true ->
            Authenticated (id (fst (m s))) = true.

(** The handler of a command list, if still there, keeps the session
    authenticated. *)
Definition goodCmd (c : cmdlist) : Prop :=
  forall entry, pe c = Some entry -> authInv (entry (tokens c)).

(** A step of a pipeline keeps the session authenticated and returns a
    good command list. *)
Definition authInvC (m : M cmdlist) : Prop :=
  forall s, Authenticated (id s) = true ->
            Authenticated (id (fst (m s))) = true /\
            forall c, snd (m s) = Done c -> goodCmd c.

End WithProvider.

Arguments Session FP : clear implicits.
Arguments M FP A : clear implicits.
Arguments cmdlist FP : clear implicits.
Arguments authInv FP {A} m.

End Session.

(* ===================================================================== *)
(** ** A file provider in memory, and the library on ASCII *)
(* ===================================================================== *)

(** A small implementation of [FileProvider], as a test of the session
    would supply: the directories of the store by virtual path, each with
    whether it can be read (a directory can be entered without being
    readable, as on a local disk), and the files by path with their
    size. *)
Module MemFS.
Import FS.

Record memFS : Type := mkMemFS {
  currentDirectory : string;
  directories : list (string * bool);
  files : list (string * Z)
}.

Definition lookupPath {A} (p : string) (entries : list (string * A))
    : option A :=
  snd <$> find (fun e => String.eqb (fst e) p) entries.

Definition removePath {A} (p : string) (entries : list (string * A))
    : list (string * A) :=
  List.filter (fun e => negb (String.eqb (fst e) p)) entries.

Definition setCurrentDirectory (d : string) (m : memFS) : memFS :=
  mkMemFS d (directories m) (files m).

#[global] Instance memFS_provider : FileProvider memFS := {|
  New := fun name isDirectory m =>
    if isDirectory then
      (mkMemFS (currentDirectory m) ((name, true) :: directories m) (files m),
       Val (mkFile name name 0))
    else
      (mkMemFS (currentDirectory m) (directories m)
               ((name, 0%Z) :: removePath name (files m)),
       Val (mkFile name name 0));
  Get := fun name m =>
    match lookupPath name (files m) with
    | Some size => (m, Val (mkFile name name size))
    | None =>
        match lookupPath name (directories m) with
        | Some _ => (m, Val (mkFile name name 0))
        | None => (m, Fail "no such file or directory")
        end
    end;
  List := fun m =>
    match lookupPath (currentDirectory m) (directories m) with
    | Some true => (m, Val [])
    | Some false => (m, Fail "permission denied")
    | None => (m, Fail "no such file or directory")
    end;
  CurrentDirectory := currentDirectory;
  ChangeDirectory := fun path m =>
    match lookupPath path (directories m) with
    | Some _ => (setCurrentDirectory path m, None)
    | None => (m, Some "no such file or directory")
    end;
  CreateDirectory := fun name m =>
    (mkMemFS (currentDirectory m) ((name, true) :: directories m) (files m),
     None);
  RemoveDirectory := fun name m =>
    match lookupPath name (directories m) with
    | Some _ =>
        (mkMemFS (currentDirectory m) (removePath name (directories m))
                 (files m), None)
    | None => (m, Some "no such file or directory")
    end;
  Delete := fun f m =>
    (mkMemFS (currentDirectory m) (directories m)
             (removePath (FullPath f) (files m)), None)
|}.

End MemFS.

(** The library restricted to ASCII: the case mappings act on the ASCII
    letters, and [Sscanf] knows no verb. It serves to run the session on
    concrete commands that stay within ASCII and literal formats. *)
Module AsciiLib.

Definition lowerByte (c : ascii) : ascii :=
  let n := nat_of_ascii c in
  if (65 <=? n)%nat && (n <=? 90)%nat then ascii_of_nat (n + 32) else c.

Definition upperByte (c : ascii) : ascii :=
  let n := nat_of_ascii c in
  if (97 <=? n)%nat && (n <=? 122)%nat then ascii_of_nat (n - 32) else c.

Fixpoint mapBytes (f : ascii -> ascii) (s : string) : string :=
  match s with
  | EmptyString => EmptyString
  | String c r => String (f c) (mapBytes f r)
  end.

#[global] Instance asciiLib : GoLib := {|
  ToLower := mapBytes lowerByte;
  ToUpper := mapBytes upperByte;
  fmtSscanf := fun _ _ => mkScanned None (Some "bad verb")
|}.

End AsciiLib.

(* ===================================================================== *)
(** ** Sample states *)
(* ===================================================================== *)

Module Samples.
Import Session.

(** An operating system on which every port can be bound. *)
Definition quietWorld : World :=
  mkWorld (Val "192.168.1.10") (fun _ => None) (fun _ => None).

(** The pool of the tests, [[10000, 10002)]. *)
Definition smallPool : PortAssigner.paService :=
  PortAssigner.mkPa 10000 10002 [false; false] 2 false.

(** A store with the root and a directory that cannot be read. *)
Definition store : MemFS.memFS :=
  MemFS.mkMemFS "/" [("/", true); ("/pub", true); ("/locked", false)]
                [("/hello.txt", 12%Z)].

Definition plainConn : SecurableConn.conn :=
  SecurableConn.mkConn false false true [].

(** A new session whose authenticator accepts the password [secret]. *)
Definition fresh : Session MemFS.memFS :=
  New plainConn false smallPool (fun _ pw => String.eqb pw "secret") store.

(** The session after the commands [cmds]. *)
Definition after (cmds : list (list string)) (s : Session MemFS.memFS)
    : Session MemFS.memFS :=
  fst (commandLoop (map (fun c => (quietWorld, c)) cmds) s).

(** The session after a successful login, and with a data channel open. *)
Definition loggedIn : Session MemFS.memFS :=
  after [["USER"; "bob"]; ["PASS"; "secret"]] fresh.

Definition ready : Session MemFS.memFS := after [["EPSV"]] loggedIn.

End Samples.

(* ===================================================================== *)
(** ** Vocabulary of the properties of the port pool *)
(* ===================================================================== *)

Module PoolSpec.
Import PortAssigner.

(** The number of slots that are not in use. *)
Fixpoint freeSlots (slots : list bool) : Z :=
  match slots with
  | [] => 0
  | inUse :: rest => ((if inUse then 0 else 1) + freeSlots rest)%Z
  end.

(** The counter [free] of the pool agrees with its slots. *)
Definition consistent (pa : paService) : Prop :=
  free pa = freeSlots (cAssigned pa).

(** The slot of [port]. *)
Definition slotOf (pa : paService) (port : Z) : nat :=
  Z.to_nat (port - minPASVPort pa).

(** [port] is one of the ports of the pool. *)
Definition inRange (pa : paService) (port : Z) : Prop :=
  (minPASVPort pa <= port < minPASVPort pa + Z.of_nat (length (cAssigned pa)))%Z.

End PoolSpec.

(* ===================================================================== *)
(** ** Vocabulary of the properties of the dispatch *)
(* ===================================================================== *)

Module SessionSpec.
Import BasicIdentity FS SecurableConn Session.

Section WithProvider.
Context {FP : Type} `{FileProvider FP} `{GoLib}.

(** The commands whose pipeline in [Handle] has [requirePASV]. *)
Definition pasvCommands : list string :=
  [ "LIST"; "NLST"; "REST"; "RETR"; "STOR" ].

(** The commands of the [switch] of [Handle]. *)
Definition knownCommands : list string := authCommands ++ openCommands.

Definition among (tok : string) (names : list string) : bool :=
  existsb (String.eqb tok) names.

(** The handler that the [switch] gives to [newCmdList] for [tok]. *)
Definition handlerOf (w : World) (tok : string) : processEntry :=
  if String.eqb tok "USER" then processUSER
  else if String.eqb tok "PASS" then processPASS
  else if String.eqb tok "PWD" then processPWD
  else if String.eqb tok "TYPE" then processTYPE
  else if String.eqb tok "PASV" then processPASV w
  else if String.eqb tok "EPSV" then processEPSV w
  else if String.eqb tok "LIST" then processLIST
  else if String.eqb tok "SYST" then processSYST
  else if String.eqb tok "CWD" then processCWD
  else if String.eqb tok "CDUP" then processCDUP
  else if String.eqb tok "SIZE" then processSIZE
  else if String.eqb tok "RETR" then processRETR
  else if String.eqb tok "STOR" then processSTOR
  else if String.eqb tok "FEAT" then processFEAT
  else if String.eqb tok "QUIT" then processQUIT
  else if String.eqb tok "NOOP" then processNOOP
  else if String.eqb tok "MKD" then processMKD
  else if String.eqb tok "RMD" then processRMD
  else if String.eqb tok "DELE" then processDELE
  else if String.eqb tok "REST" then processREST
  else if String.eqb tok "NLST" then processNLST
  else if String.eqb tok "AUTH" then processAUTH
  else processPROT.

(** The session has no data channel, or a closed one. *)
Definition noChannel (s : Session FP) : bool :=
  match lastDataChanneler s with
  | None => true
  | Some dc => DataChannel.IsClosed dc
  end.

(** The session after the resets of the pipeline of [tok]: [resetUSER]
    in every pipeline but those of [USER] and [PASS], [resetREST] in
    every pipeline but that of [RETR]. *)
Definition checkState (tok : string) (s : Session FP) : Session FP :=
  let s1 :=
    if among tok ["USER"; "PASS"] || Authenticated (id s) then s
    else setId (SetUsername "" (id s)) s in
  if String.eqb tok "RETR" then s1 else setLastREST 0 s1.

(** What the pipeline decides for a command. *)
Inductive verdict : Type := Unknown | NeedLogin | NeedPASV | Run.

Definition verdictOf (tok : string) (s : Session FP) : verdict :=
  if negb (among tok knownCommands) then Unknown
  else if among tok authCommands && negb (Authenticated (id s)) then NeedLogin
  else if among tok pasvCommands && noChannel s then NeedPASV
  else Run.

(** The reply of a check that refuses a command. *)
Definition refuse (statement : string) (s : Session FP)
    : Session FP * outcome bool :=
  (setConn (WriteString (statement +:+ CRLF) (conn s)) s, Done false).

(** A line of the control connection ends with CR LF. *)
Definition endsCRLF (line : string) : Prop :=
  exists body, line = body +:+ CRLF.

(** Every line written so far ends with CR LF. *)
Definition wireOk (s : Session FP) : Prop :=
  Forall endsCRLF (bufw (conn s)).

(** A method keeps the property [I] of the session. *)
Definition keeps {A} (I : Session FP -> Prop) (m : M FP A) : Prop :=
  forall s, I s -> I (fst (m s)).

(** A method returns only results in [R]. *)
Definition returns {A} (R : A -> Prop) (m : M FP A) : Prop :=
  forall s a, snd (m s) = Done a -> R a.

(** A property of the session that no change of the connection by a
    written line or by the switch to TLS, of the provider, of the pool,
    of the data channel, of the transfers or of the encryption flag can
    break. *)
Record stable (I : Session FP -> Prop) : Prop := mkStable {
  st_write : forall s line, endsCRLF line -> I s ->
               I (setConn (WriteString line (conn s)) s);
  st_tls : forall s c, SwitchToTLS (conn s) = Done c -> I s -> I (setConn c s);
  st_fp : forall s fp, I s -> I (setFileProvider fp s);
  st_pa : forall s p, I s -> I (setPa p s);
  st_dc : forall s dc, I s -> I (setLastDataChanneler dc s);
  st_sunk : forall s k, I s -> I (setSunk k s);
  st_enc : forall s e, I s -> I (setDataChannelEncryption e s)
}.

End WithProvider.

Arguments keeps FP {A} I m.
Arguments returns FP {A} R m.

End SessionSpec.

(* ===================================================================== *)
(** ** Vocabulary of the properties of the transfers *)
(* ===================================================================== *)

Module TransferSpec.
Import Session.

Section WithProvider.
Context {FP : Type} `{FS.FileProvider FP} `{GoLib}.

(** The commands whose handler hands a routine to the data channel. *)
Definition transferCommands : list string :=
  [ "LIST"; "NLST"; "RETR"; "STOR" ].

(** What a handler does with the data channel: nothing is handed over,
    or the channel of the session is handed over with one routine and the
    session lets go of it. *)
Definition oneShot (s : Session FP) (r : Session FP * outcome bool) : Prop :=
  sunk (fst r) = sunk s \/
  exists dc f,
    lastDataChanneler s = Some dc /\
    sunk (fst r) = sunk s ++ [(dc, f)] /\
    lastDataChanneler (fst r) = None /\
    snd r = Done false.

End WithProvider.

End TransferSpec.

(* ===================================================================== *)
(** ** Vocabulary of the properties of the passive mode *)
(* ===================================================================== *)

Module PassiveSpec.
Import Session.

Section WithProvider.
Context {FP : Type} `{FS.FileProvider FP} `{GoLib}.

(** The session with one more line on the control connection. *)
Definition wrote (line : string) (s : Session FP) : Session FP :=
  setConn (SecurableConn.WriteString line (conn s)) s.

(** The channel that [New] makes on [port] for the session [s], and the
    same channel once [Open] has bound its listener. *)
Definition madeChannel (s : Session FP) (port : Z) : DataChannel.dataChannel :=
  DataChannel.mkDc (cert s) port false false false (dataChannelEncryption s)
                   false 0.

Definition openedChannel (s : Session FP) (port : Z)
    : DataChannel.dataChannel :=
  DataChannel.mkDc (cert s) port true false false (dataChannelEncryption s)
                   true 0.

End WithProvider.

End PassiveSpec.

(* ===================================================================== *)
(** ** Vocabulary of the properties of the encryption *)
(* ===================================================================== *)

Module TlsSpec.
Import Session.

Section WithProvider.
Context {FP : Type} `{FS.FileProvider FP} `{GoLib}.

(** The data channel of the session, if any, has the encryption flag of
    the session. *)
Definition encSync (s : Session FP) : Prop :=
  match lastDataChanneler s with
  | Some dc => DataChannel.Encrypted dc = dataChannelEncryption s
  | None => True
  end.

(** The data channels are encrypted only on a session whose control
    connection is. *)
Definition encNeedsTLS (s : Session FP) : Prop :=
  dataChannelEncryption s = true ->
  SecurableConn.IsSecure (conn s) = true.

(** A method keeps both properties of the encryption. *)
Definition keepsTls {A} (m : M FP A) : Prop :=
  SessionSpec.keeps FP encSync m /\ SessionSpec.keeps FP encNeedsTLS m.

End WithProvider.

Arguments keepsTls FP {A} m.

End TlsSpec.


(* ===================================================================== *)
(** ** Package [azureFS]: the current directory *)
(* ===================================================================== *)

Module AzureFS.
Import GoStrings.

(** What [ChangeDirectory] asks the client of the blob storage:
    [ContainerExists(name)] and [BlobExists(container, name)]. *)
Record BlobStorageClient : Type := mkClient {
  ContainerExists : string -> goerr bool;
  BlobExists : string -> string -> goerr bool
}.

Record azureFS : Type := mkAzureFS {
  client : BlobStorageClient;
  currentRealDirectory : string
}.

Definition setCurrentRealDirectory (dir : string) (pfs : azureFS) : azureFS :=
  mkAzureFS (client pfs) dir.

Definition CurrentDirectory (pfs : azureFS) : string :=
  "/" +:+ currentRealDirectory pfs.

(** [splitAndCleanPath]: the non-empty items of [strings.Split(s, "/")]. *)
Definition splitAndCleanPath (s : string) : list string :=
  Path.nonEmpty (Split s Path.slash).

(** [ChangeDirectory]. After [toks = toks[:len(toks)-2]] the slice can be
    empty, and [toks[0]] is then a run-time panic. *)
Definition ChangeDirectory (path : string) (pfs : azureFS)
    : outcome (azureFS * option error) :=
  match path with
  | EmptyString => Done (setCurrentRealDirectory "" pfs, None)
  | String c _ =>
      let fullpath :=
        if negb (Ascii.eqb c Path.slash)
        then "/" +:+ currentRealDirectory pfs +:+ "/" +:+ path
        else path in
      let toks := splitAndCleanPath fullpath in
      if (length toks =? 0)%nat then
        Done (setCurrentRealDirectory "" pfs, None)
      else
        let strip := String.eqb (default "" (last toks)) ".." in
        if strip && (length toks =? 1)%nat then
          Done (setCurrentRealDirectory "" pfs, None)
        else
          let toks := if strip then take (length toks - 2) toks else toks in
          if (length toks =? 1)%nat then
            let name := default "" (head toks) in
            match ContainerExists (client pfs) name with
            | Fail err => Done (pfs, Some err)
            | Val false =>
                Done (pfs, Some "cannot change directory: container not found")
            | Val true => Done (setCurrentRealDirectory name pfs, None)
            end
          else
            match toks with
            | [] => Aborted Panic
            | container :: blob =>
                match BlobExists (client pfs) container (Join blob "/") with
                | Fail err => Done (pfs, Some err)
                | Val false =>
                    Done (pfs, Some "cannot change directory: blob not found")
                | Val true =>
                    Done (setCurrentRealDirectory (Join toks "/") pfs, None)
                end
            end
  end.

(** A storage with the container [photos] and, in it, the blob [2016]. *)
Definition account : BlobStorageClient :=
  mkClient (fun name => Val (String.eqb name "photos"))
           (fun container name =>
              Val (String.eqb container "photos" && String.eqb name "2016")).

End AzureFS.

(* ===================================================================== *)
(** ** Package [localFS]: the directory shown to the client *)
(* ===================================================================== *)

Module LocalFS.
Import GoStrings.

Record physicalFS : Type := mkPhysicalFS {
  homeRealDirectory : string;
  currentRealDirectory : string
}.

(** [os.PathSeparator] (the package is for Unix only). *)
Definition PathSeparator : ascii := "/"%char.

(** [CurrentDirectory]: [remote[lHome:]] is a run-time panic when the
    current directory has fewer pieces than the home directory. *)
Definition CurrentDirectory (pfs : physicalFS) : outcome string :=
  let home := Split (homeRealDirectory pfs) PathSeparator in
  let lHome := length home in
  let remote := Split (currentRealDirectory pfs) PathSeparator in
  if (length remote <? lHome)%nat then Aborted Panic
  else Done ("/" +:+ Join (drop lHome remote) "/").

End LocalFS.


(* ===================================================================== *)
(** * Properties *)
(* ===================================================================== *)

(** ** Path normalizer *)

Section PathFacts.
Import GoStrings Path.

(** Induction on lists that follows [pairs]: two tokens at a time. *)
Lemma list_pair_ind (P : list string -> Prop) :
  P [] ->
  (forall x, P [x]) ->
  (forall x y r, P r -> P (y :: r) -> P (x :: y :: r)) ->
  forall l, P l.
Proof.
  intros Hnil Hone Hstep l.
  assert (Hboth : P l /\ forall x, P (x :: l)).
  { induction l as [|y r [IHr IHyr]]; split; auto. }
  exact (proj1 Hboth).
Qed.

Lemma pairs_cons2 x y r :
  pairs (x :: y :: r) =
  if String.eqb y dotdot then pairs r else x :: pairs (y :: r).
Proof. reflexivity. Qed.

(** The index loop computes [pairs] on the tokens from the index on. *)
Lemma collapseLoop_pairs fuel : forall pre rest tmp,
  (length rest <= fuel)%nat ->
  collapseLoop fuel (pre ++ rest) (length pre) tmp = tmp ++ pairs rest.
Proof.
  induction fuel as [|fuel IH]; intros pre rest tmp Hfuel.
  - destruct rest; [|simpl in Hfuel; lia]. simpl. by rewrite app_nil_r.
  - destruct rest as [|x [|y rest]].
    + simpl. rewrite app_nil_r.
      destruct (Nat.ltb_spec (length pre + 1) (length pre)); [lia|].
      by rewrite app_nil_r.
    + simpl. rewrite length_app. simpl.
      destruct (Nat.ltb_spec (length pre + 1) (length pre + 1)); [lia|].
      by rewrite app_nil_r.
    + cbn [collapseLoop]. rewrite length_app. cbn [length].
      destruct (Nat.ltb_spec (length pre + 1) (length pre + S (S (length rest))));
        [|lia].
      assert (Hy : (pre ++ x :: y :: rest) !! (length pre + 1)%nat = Some y).
      { rewrite lookup_app_r by lia.
        replace (length pre + 1 - length pre)%nat with 1%nat by lia. done. }
      assert (Hx : (pre ++ x :: y :: rest) !! length pre = Some x).
      { rewrite lookup_app_r by lia. rewrite Nat.sub_diag. done. }
      rewrite Hy, Hx, pairs_cons2. cbn [default from_option id].
      simpl in Hfuel.
      destruct (String.eqb y dotdot).
      * replace (pre ++ x :: y :: rest) with ((pre ++ [x; y]) ++ rest)
          by (rewrite <- app_assoc; done).
        replace (length pre + 2)%nat with (length (pre ++ [x; y]))
          by (rewrite length_app; simpl; lia).
        apply IH. lia.
      * replace (pre ++ x :: y :: rest) with ((pre ++ [x]) ++ y :: rest)
          by (rewrite <- app_assoc; done).
        replace (length pre + 1)%nat with (length (pre ++ [x]))
          by (rewrite length_app; simpl; lia).
        rewrite IH by (simpl; lia). by rewrite <- app_assoc.
Qed.

(** [splitAndClearPath] is [collapse] of the segments. *)
Lemma splitAndClearPath_collapse s :
  splitAndClearPath s = collapse (segments s).
Proof.
  unfold splitAndClearPath, collapse, lastKept.
  pose proof (collapseLoop_pairs (length (segments s)) [] (segments s) []) as E.
  simpl in E. rewrite E by lia.
  destruct (last (segments s)) as [l|]; [|by rewrite app_nil_r].
  destruct (negb (String.eqb l dotdot)); [done|by rewrite app_nil_r].
Qed.

Lemma last_cons2 (x y : string) r : last (x :: y :: r) = last (y :: r).
Proof. reflexivity. Qed.

Lemma lastKept_cons2 x y r : lastKept (x :: y :: r) = lastKept (y :: r).
Proof. unfold lastKept. by rewrite last_cons2. Qed.

Lemma lastKept_no_dotdot toks : ~ In dotdot (lastKept toks).
Proof.
  unfold lastKept. destruct (last toks) as [l|]; [|simpl; tauto].
  destruct (String.eqb_spec l dotdot) as [->|Hne]; simpl; [tauto|].
  intros [->|[]]. by apply Hne.
Qed.

(** Without [..] among the tokens the second loop changes nothing. *)
Lemma collapse_no_dotdot toks : ~ In dotdot toks -> collapse toks = toks.
Proof.
  unfold collapse. induction toks as [|x | x y r _ IH] using list_pair_ind;
    intros Hno.
  - reflexivity.
  - unfold lastKept. simpl.
    destruct (String.eqb_spec x dotdot) as [->|_]; [|done].
    exfalso. apply Hno. by left.
  - rewrite pairs_cons2, lastKept_cons2.
    destruct (String.eqb_spec y dotdot) as [->|_].
    + exfalso. apply Hno. right. by left.
    + simpl. f_equal. apply IH. intros Hin. apply Hno. by right.
Qed.

(** The tokens kept by the second loop are tokens of its input. *)
Lemma pairs_incl toks : forall x, In x (pairs toks) -> In x toks.
Proof.
  induction toks as [|x | a b r IHr IHbr] using list_pair_ind; intros z.
  - simpl. tauto.
  - simpl. tauto.
  - rewrite pairs_cons2. destruct (String.eqb b dotdot).
    + intros Hz. right. right. by apply IHr.
    + intros [->|Hz]; [by left|]. right. by apply IHbr.
Qed.

Lemma lastKept_incl toks : forall x, In x (lastKept toks) -> In x toks.
Proof.
  unfold lastKept. intros x. destruct (last toks) as [l|] eqn:El; [|simpl; tauto].
  destruct (negb (String.eqb l dotdot)); [|simpl; tauto].
  intros [<-|[]]. apply last_Some in El as [l' ->].
  apply in_app_iff. right. by left.
Qed.

Lemma collapse_incl toks x : In x (collapse toks) -> In x toks.
Proof.
  unfold collapse. rewrite in_app_iff.
  intros [Hx|Hx]; [by apply pairs_incl|by apply lastKept_incl].
Qed.

(** When the tokens do not start with [..] and no two [..] are adjacent,
    every [..] is the second token of a pair and is removed with the first. *)
Lemma pairs_drops_dotdot toks :
  head toks <> Some dotdot -> twoDotdots toks = false ->
  ~ In dotdot (pairs toks).
Proof.
  induction toks as [|x | x y r IHr IHyr] using list_pair_ind;
    intros Hhead Htwo.
  - simpl. tauto.
  - simpl. tauto.
  - rewrite pairs_cons2.
    assert (Hrest : twoDotdots (y :: r) = false).
    { cbn [twoDotdots] in Htwo. by apply orb_false_iff in Htwo as [_ ?]. }
    destruct (String.eqb y dotdot) eqn:Ey.
    + apply String.eqb_eq in Ey as ->.
      destruct r as [|z r']; [simpl; tauto|].
      cbn [twoDotdots] in Hrest.
      apply orb_false_iff in Hrest as [Hyz Hrest].
      rewrite String.eqb_refl in Hyz. simpl in Hyz.
      apply String.eqb_neq in Hyz.
      apply IHr; [simpl; congruence|exact Hrest].
    + apply String.eqb_neq in Ey. intros [Hx|Hin].
      * apply Hhead. simpl. by rewrite Hx.
      * revert Hin. apply IHyr; [simpl; congruence|exact Hrest].
Qed.

(** C7. [clearPath] maps each of the six inputs of the table to the
    stated output. *)
Theorem clearPath_table :
  clearPath "/root/test/third" = Some "/root/test/third" /\
  clearPath "/root/test/third/.." = Some "/root/test" /\
  clearPath "/root/../third" = Some "/third" /\
  clearPath "/root/test/../third/forth/.." = Some "/root/third" /\
  clearPath "root/test/../third/forth/.." = Some "root/third" /\
  clearPath "root/test/third" = Some "root/test/third".
Proof. repeat split; vm_compute; reflexivity. Qed.

(** C6, as stated, fails: the input [../a] is not the bare string [..],
    and its result contains [..]. *)
Lemma splitAndClearPath_keeps_leading_dotdot :
  "../a" <> dotdot /\ splitAndClearPath "../a" = [dotdot; "a"] /\
  In dotdot (splitAndClearPath "../a").
Proof. split; [discriminate|]. split; [reflexivity|]. by left. Qed.

(** C6, amended. For every input whose non-empty segments do not start
    with [..] and have no two consecutive [..], the result of
    [splitAndClearPath] contains no [..]. *)
Theorem splitAndClearPath_no_dotdot (s : string) :
  head (segments s) <> Some dotdot ->
  twoDotdots (segments s) = false ->
  ~ In dotdot (splitAndClearPath s).
Proof.
  intros Hhead Htwo. rewrite splitAndClearPath_collapse.
  unfold collapse. rewrite in_app_iff. intros [Hin|Hin].
  - by apply (pairs_drops_dotdot (segments s)).
  - by apply (lastKept_no_dotdot (segments s)).
Qed.

Lemma splitAndClearPath_no_dotdot_witness :
  head (segments "/root/test/../third/forth/..") <> Some dotdot /\
  twoDotdots (segments "/root/test/../third/forth/..") = false /\
  ~ In dotdot (splitAndClearPath "/root/test/../third/forth/..").
Proof.
  split; [discriminate|]. split; [reflexivity|].
  apply (splitAndClearPath_no_dotdot "/root/test/../third/forth/..");
    [discriminate|reflexivity].
Defined.

(** *** [Split] and [Join] *)

Lemma Split_not_nil s sep : Split s sep <> [].
Proof.
  destruct s as [|c r]; simpl; [done|].
  destruct (Ascii.eqb c sep); [done|]. by destruct (Split r sep).
Qed.

Lemma Split_pieces s sep :
  Forall (fun p => contains sep p = false) (Split s sep).
Proof.
  induction s as [|c r IH]; simpl.
  - by constructor.
  - destruct (Ascii.eqb c sep) eqn:Ec.
    + by constructor.
    + destruct (Split r sep) as [|piece pieces].
      * constructor; [|done]. simpl. by rewrite Ec.
      * inversion IH; subst. constructor; [|done]. simpl. by rewrite Ec.
Qed.

Lemma Split_no_sep x sep : contains sep x = false -> Split x sep = [x].
Proof.
  induction x as [|c r IH]; simpl; [done|].
  intros Hc. apply orb_false_iff in Hc as [Hc Hr].
  rewrite Hc, IH by done. done.
Qed.

Lemma Split_app x sep r :
  contains sep x = false ->
  Split (x +:+ String sep r) sep = x :: Split r sep.
Proof.
  induction x as [|c x' IH]; simpl.
  - intros _. by rewrite Ascii.eqb_refl.
  - intros Hc. apply orb_false_iff in Hc as [Hc Hx'].
    rewrite Hc, IH by done. done.
Qed.

Lemma Split_Join toks :
  toks <> [] -> Forall segment toks -> Split (Join toks "/") slash = toks.
Proof.
  induction toks as [|x rest IH]; [done|]. intros _ Hall.
  inversion Hall as [|? ? [_ Hx] Hrest]; subst.
  destruct rest as [|y rest'].
  - simpl. by apply Split_no_sep.
  - change (Join (x :: y :: rest') "/")
      with (x +:+ String slash (Join (y :: rest') "/")).
    rewrite Split_app by done. f_equal. by apply IH.
Qed.

Lemma nonEmpty_segments toks : Forall segment toks -> nonEmpty toks = toks.
Proof.
  induction 1 as [|x rest [Hx _] _ IH]; simpl; [done|].
  destruct (String.eqb_spec x ""); [done|]. by rewrite IH.
Qed.

Lemma nonEmpty_Forall (P : string -> Prop) items :
  Forall P items -> Forall (fun p => p <> "" /\ P p) (nonEmpty items).
Proof.
  induction 1 as [|x rest Hx _ IH]; simpl; [by constructor|].
  destruct (String.eqb_spec x ""); [done|]. by constructor.
Qed.

Lemma segments_Forall s : Forall segment (segments s).
Proof. apply nonEmpty_Forall, Split_pieces. Qed.

Lemma splitAndClearPath_Forall s : Forall segment (splitAndClearPath s).
Proof.
  rewrite splitAndClearPath_collapse. apply Forall_forall. intros x Hx.
  apply list_elem_of_In, collapse_incl in Hx.
  pose proof (segments_Forall s) as Hall.
  rewrite Forall_forall in Hall. by apply Hall, list_elem_of_In.
Qed.

(** The segments of a joined list of segments, with or without a leading
    separator, are the list. *)
Lemma segments_Join toks :
  Forall segment toks -> segments (Join toks "/") = toks.
Proof.
  intros Hall. unfold segments. destruct toks as [|x rest]; [done|].
  rewrite Split_Join by done. by apply nonEmpty_segments.
Qed.

Lemma segments_slash_Join toks :
  Forall segment toks -> segments ("/" +:+ Join toks "/") = toks.
Proof. intros Hall. by apply segments_Join in Hall. Qed.

Lemma Join_nil_inv toks : Forall segment toks -> Join toks "/" = "" -> toks = [].
Proof.
  intros Hall. destruct toks as [|x rest]; [done|].
  inversion Hall as [|? ? [Hx _] _]; subst.
  destruct x as [|c x']; [done|]. by destruct rest.
Qed.

Lemma Join_first_byte toks c r :
  Forall segment toks -> Join toks "/" = String c r -> Ascii.eqb c slash = false.
Proof.
  intros Hall. destruct toks as [|x rest]; [done|].
  inversion Hall as [|? ? [Hx Hs] _]; subst.
  destruct x as [|d x']; [done|]. simpl in Hs.
  apply orb_false_iff in Hs as [Hd _].
  destruct rest; simpl; intros [= <- _]; done.
Qed.

(** C5, as stated, fails: [clearPath] applied twice to [a/b/../../c]
    gives [c], applied once it gives [a/../c]; and on the empty string it
    does not return. *)
Lemma clearPath_not_idempotent :
  clearPath "a/b/../../c" = Some "a/../c" /\
  clearPath "a/../c" = Some "c" /\
  "c" <> "a/../c" /\
  clearPath "" = None.
Proof. repeat split; try reflexivity. discriminate. Qed.

(** C5, amended. For every non-empty string [s] such that
    [splitAndClearPath s] contains no [..], [clearPath] returns a path
    that [clearPath] leaves unchanged. *)
Theorem clearPath_idempotent (s : string) :
  s <> "" ->
  ~ In dotdot (splitAndClearPath s) ->
  exists r, clearPath s = Some r /\ clearPath r = Some r.
Proof.
  intros Hs Hno.
  pose proof (splitAndClearPath_Forall s) as Hall.
  set (T := splitAndClearPath s) in *.
  assert (Hfix : splitAndClearPath (Join T "/") = T).
  { rewrite splitAndClearPath_collapse, segments_Join by done.
    by apply collapse_no_dotdot. }
  assert (Hfix' : splitAndClearPath ("/" +:+ Join T "/") = T).
  { rewrite splitAndClearPath_collapse, segments_slash_Join by done.
    by apply collapse_no_dotdot. }
  unfold clearPath at 1. fold T.
  destruct (String.eqb s dotdot) eqn:Edd.
  { exists s. split; [done|]. unfold clearPath. by rewrite Edd. }
  destruct s as [|c s']; [done|].
  destruct (Ascii.eqb c slash) eqn:Ec.
  - exists ("/" +:+ Join T "/"). split; [done|].
    unfold clearPath. rewrite Hfix'. reflexivity.
  - destruct (String.eqb (Join T "/") "") eqn:Ep.
    + exists "/". split; reflexivity.
    + exists (Join T "/"). split; [done|].
      unfold clearPath. rewrite Hfix, Ep.
      destruct (String.eqb (Join T "/") dotdot); [done|].
      destruct (Join T "/") as [|d r] eqn:Ej; [done|].
      by rewrite (Join_first_byte T d r).
Qed.

Lemma clearPath_idempotent_witness :
  exists r, clearPath "/root/test/../third/forth/.." = Some r /\
            clearPath r = Some r.
Proof.
  apply (clearPath_idempotent "/root/test/../third/forth/..").
  - discriminate.
  - vm_compute. intros [H|[H|[]]]; discriminate.
Defined.

End PathFacts.

(** ** Port pool and data channel *)

Section ChannelFacts.
Import PortAssigner DataChannel.

(** [Close] never changes the port of the channel, so a channel is closed
    after [Close] only if it was before. *)
Lemma Close_keeps_port dc pa dc' pa' :
  Close dc pa = Done (dc', pa') ->
  port dc' = port dc /\ IsClosed dc' = IsClosed dc.
Proof.
  unfold Close, IsClosed. intros Hc.
  destruct (killChanCap <=? killChan dc)%nat; [done|].
  destruct (negb (port dc =? 0)%Z).
  - destruct (ReleasePort (port dc) pa); [|done].
    by injection Hc as <- <-.
  - by injection Hc as <- <-.
Qed.

(** What [Close] does to the pool: the slot of the port is free
    afterwards, and the counter of free ports has grown by one. *)
Lemma Close_releases_port dc pa dc' pa' :
  Close dc pa = Done (dc', pa') -> port dc <> 0%Z ->
  cAssigned pa' !! Z.to_nat (port dc - minPASVPort pa) = Some false /\
  free pa' = (free pa + 1)%Z.
Proof.
  unfold Close. intros Hc Hport.
  destruct (killChanCap <=? killChan dc)%nat; [done|].
  apply Z.eqb_neq in Hport. rewrite Hport in Hc. simpl in Hc.
  unfold ReleasePort in Hc.
  destruct (handlerClosed pa); [done|].
  destruct ((port dc - minPASVPort pa <? 0)%Z
            || (Z.of_nat (length (cAssigned pa)) <=? port dc - minPASVPort pa)%Z)
    eqn:Erange; [done|].
  injection Hc as <- <-. simpl. split; [|done].
  apply orb_false_iff in Erange as [Hlo Hhi].
  apply list_lookup_insert_eq. lia.
Qed.

(** C3, on the code. The pool of the tests, a channel made on it, and
    [Close]: the port goes back to the pool, but the field [port] keeps
    its value and [IsClosed] answers [false]. *)
Theorem Close_leaves_channel_open :
  exists pa0 pa1 dc pa2 dc',
    PortAssigner.New 10000 10002 = Done pa0 /\
    DataChannel.New (fun _ => None) pa0 false false = Done (pa1, Val dc) /\
    port dc = 10000%Z /\ cAssigned pa1 = [true; false] /\
    Close dc pa1 = Done (dc', pa2) /\
    cAssigned pa2 = [false; false] /\
    port dc' = 10000%Z /\ IsClosed dc' = false.
Proof. repeat eexists; vm_compute; reflexivity. Qed.

(** C4, on the code. A second [Close] releases the port again: the pool
    counts three free ports out of two, and another value waits in
    [killChan]. *)
Theorem Close_twice_releases_twice :
  exists pa0 pa1 dc pa2 dc' pa3 dc'',
    PortAssigner.New 10000 10002 = Done pa0 /\
    DataChannel.New (fun _ => None) pa0 false false = Done (pa1, Val dc) /\
    Close dc pa1 = Done (dc', pa2) /\
    Close dc' pa2 = Done (dc'', pa3) /\
    free pa2 = 2%Z /\ free pa3 = 3%Z /\
    killChan dc' = 1%nat /\ killChan dc'' = 2%nat /\
    (dc'', pa3) <> (dc', pa2).
Proof.
  do 7 eexists. repeat split; try (vm_compute; reflexivity).
  vm_compute. discriminate.
Qed.

(** The same defect between two channels: the port released by the first
    [Close] is assigned to a second channel, and a second [Close] of the
    first channel frees it under the second. *)
Lemma Close_twice_frees_port_in_use :
  exists pa0 pa1 dc pa2 dc' pa3 other pa4 dc'',
    PortAssigner.New 10000 10002 = Done pa0 /\
    DataChannel.New (fun _ => None) pa0 false false = Done (pa1, Val dc) /\
    Close dc pa1 = Done (dc', pa2) /\
    DataChannel.New (fun _ => None) pa2 false false = Done (pa3, Val other) /\
    port other = 10000%Z /\
    Close dc' pa3 = Done (dc'', pa4) /\
    IsClosed other = false /\ cAssigned pa4 = [false; false].
Proof. repeat eexists; vm_compute; reflexivity. Qed.

End ChannelFacts.

(** ** Session *)

(** Decide the tests of the [switch] of [Handle] for a known first
    token. *)
Ltac switch_on tok :=
  repeat match goal with
         | |- context [String.eqb tok ?name] =>
             let b := eval vm_compute in (String.eqb tok name) in
             change (String.eqb tok name) with b
         end;
  cbv iota.

(** Membership in a list of literals. *)
Ltac in_list := vm_compute; repeat first [left; reflexivity | right].

Section SessionFacts.
Import BasicIdentity FS SecurableConn Session.
Context {FP : Type} `{FileProvider FP} `{GoLib}.

(** *** Methods that keep the session authenticated *)

Lemma authInv_ret {A} (a : A) : authInv FP (ret a).
Proof. intros s Hs. exact Hs. Qed.

Lemma authInv_abortWith {A} why : authInv FP (abortWith (A:=A) why).
Proof. intros s Hs. exact Hs. Qed.

Lemma authInv_gets {A} (f : Session FP -> A) : authInv FP (gets f).
Proof. intros s Hs. exact Hs. Qed.

Lemma authInv_bind {A B} (m : M FP A) (k : A -> M FP B) :
  authInv FP m -> (forall a, authInv FP (k a)) -> authInv FP (bind m k).
Proof.
  intros Hm Hk s Hs. unfold bind. specialize (Hm s Hs).
  destruct (m s) as [s' [a|why]]; simpl in *; [by apply Hk|done].
Qed.

Lemma authInv_modify (f : Session FP -> Session FP) :
  (forall s, Authenticated (id (f s)) = Authenticated (id s)) ->
  authInv FP (modify f).
Proof. intros Hf s Hs. simpl. by rewrite Hf. Qed.

Lemma authInv_sendStatement statement : authInv FP (sendStatement statement).
Proof.
  unfold sendStatement.
  destruct (String.length statement <? 2)%nat; [apply authInv_abortWith|].
  by apply authInv_modify.
Qed.

Lemma authInv_index xs i : authInv FP (index xs i).
Proof.
  unfold index. destruct (xs !! i); [apply authInv_ret|apply authInv_abortWith].
Qed.

Lemma authInv_cleared p : authInv FP (cleared p).
Proof.
  unfold cleared.
  destruct (Path.clearPath p); [apply authInv_ret|apply authInv_abortWith].
Qed.

Lemma authInv_provider {A} (op : FP -> FP * A) : authInv FP (provider op).
Proof.
  intros s Hs. unfold provider. by destruct (op (fileProvider s)).
Qed.

Lemma authInv_closeChannel dc : authInv FP (closeChannel dc).
Proof.
  intros s Hs. unfold closeChannel.
  by destruct (DataChannel.Close dc (pa s)) as [[dc' pa']|why].
Qed.

Lemma authInv_Sink dc f : authInv FP (Sink dc f).
Proof.
  unfold Sink. destruct dc as [d|]; [|apply authInv_abortWith].
  destruct (DataChannel.fncChan d); [by apply authInv_modify|].
  apply authInv_abortWith.
Qed.

Lemma authInv_newChannel w : authInv FP (newChannel w).
Proof.
  intros s Hs. unfold newChannel.
  by destruct (DataChannel.New _ _ _ _) as [[pa' [dc|e]]|why].
Qed.

Lemma authInv_switchToTLS : authInv FP switchToTLS.
Proof.
  intros s Hs. unfold switchToTLS. by destruct (SwitchToTLS (conn s)).
Qed.

Create HintDb auth.

#[local] Hint Resolve authInv_ret authInv_abortWith authInv_gets
  authInv_sendStatement authInv_index authInv_cleared authInv_provider
  authInv_closeChannel authInv_Sink authInv_newChannel authInv_switchToTLS
  : auth.

(** One step of a proof that a method keeps the session authenticated:
    through a [bind], into the branches of a test, or by a known method. *)
Ltac auth_step :=
  match goal with
  | |- authInv _ (bind _ _) => apply authInv_bind; [|intros ?]
  | |- authInv _ (modify _) => apply authInv_modify; intros ?; reflexivity
  | |- authInv _ (if ?b then _ else _) => destruct b
  | |- authInv _ (match ?x with _ => _ end) => destruct x
  | |- authInv _ _ => solve [auto with auth]
  end.

Ltac auth_inv := repeat auth_step.

Lemma authInv_retrievePassivePort w : authInv FP (retrievePassivePort w).
Proof. unfold retrievePassivePort. auth_inv. Qed.

Lemma authInv_openLast w : authInv FP (openLast w).
Proof. unfold openLast. auth_inv. Qed.

#[local] Hint Resolve authInv_retrievePassivePort authInv_openLast : auth.

Lemma authInv_processSYST toks : authInv FP (processSYST toks).
Proof. unfold processSYST. auth_inv. Qed.

Lemma authInv_processQUIT toks : authInv FP (processQUIT toks).
Proof. unfold processQUIT. auth_inv. Qed.

Lemma authInv_processNOOP toks : authInv FP (processNOOP toks).
Proof. unfold processNOOP. auth_inv. Qed.

Lemma authInv_processFEAT toks : authInv FP (processFEAT toks).
Proof. unfold processFEAT. auth_inv. Qed.

Lemma authInv_processPWD toks : authInv FP (processPWD toks).
Proof. unfold processPWD. auth_inv. Qed.

Lemma authInv_processCWD toks : authInv FP (processCWD toks).
Proof. unfold processCWD. auth_inv. Qed.

Lemma authInv_processCDUP toks : authInv FP (processCDUP toks).
Proof. unfold processCDUP. apply authInv_processCWD. Qed.

Lemma authInv_processRETR toks : authInv FP (processRETR toks).
Proof. unfold processRETR. auth_inv. Qed.

Lemma authInv_processSTOR toks : authInv FP (processSTOR toks).
Proof. unfold processSTOR. auth_inv. Qed.

Lemma authInv_processLIST toks : authInv FP (processLIST toks).
Proof. unfold processLIST. auth_inv. Qed.

Lemma authInv_processNLST toks : authInv FP (processNLST toks).
Proof. unfold processNLST. auth_inv. Qed.

Lemma authInv_processUSER toks : authInv FP (processUSER toks).
Proof. unfold processUSER. auth_inv. Qed.

Lemma authInv_processPASV w toks : authInv FP (processPASV w toks).
Proof. unfold processPASV. auth_inv. Qed.

Lemma authInv_processEPSV w toks : authInv FP (processEPSV w toks).
Proof. unfold processEPSV. auth_inv. Qed.

Lemma authInv_processTYPE toks : authInv FP (processTYPE toks).
Proof. unfold processTYPE. auth_inv. Qed.

Lemma authInv_processSIZE toks : authInv FP (processSIZE toks).
Proof. unfold processSIZE. auth_inv. Qed.

Lemma authInv_processMKD toks : authInv FP (processMKD toks).
Proof. unfold processMKD. auth_inv. Qed.

Lemma authInv_processRMD toks : authInv FP (processRMD toks).
Proof. unfold processRMD. auth_inv. Qed.

Lemma authInv_processDELE toks : authInv FP (processDELE toks).
Proof. unfold processDELE. auth_inv. Qed.

Lemma authInv_processREST toks : authInv FP (processREST toks).
Proof. unfold processREST. auth_inv. Qed.

Lemma authInv_processAUTH toks : authInv FP (processAUTH toks).
Proof. unfold processAUTH. auth_inv. Qed.

Lemma authInv_processPROT toks : authInv FP (processPROT toks).
Proof. unfold processPROT. auth_inv. Qed.

#[local] Hint Resolve authInv_processSYST authInv_processQUIT
  authInv_processNOOP authInv_processFEAT authInv_processPWD
  authInv_processCWD authInv_processCDUP authInv_processRETR
  authInv_processSTOR authInv_processLIST authInv_processNLST
  authInv_processUSER authInv_processPASV authInv_processEPSV
  authInv_processTYPE authInv_processSIZE authInv_processMKD
  authInv_processRMD authInv_processDELE authInv_processREST
  authInv_processAUTH authInv_processPROT : auth.

(** *** The pipelines of [Handle] *)

Lemma authInvC_newCmdList toks (entry : processEntry) :
  authInv FP (entry toks) -> authInvC (newCmdList toks entry).
Proof.
  intros Hentry s Hs. split; [exact Hs|].
  intros c [= <-] e [= <-]. exact Hentry.
Qed.

Lemma authInvC_bind (m : M FP (cmdlist FP)) (f : cmdlist FP -> M FP (cmdlist FP)) :
  authInvC m -> (forall c, goodCmd c -> authInvC (f c)) ->
  authInvC (bind m f).
Proof.
  intros Hm Hf s Hs. unfold bind. destruct (Hm s Hs) as [Hauth Hgood].
  destruct (m s) as [s' [c|why]]; simpl in *.
  - by apply Hf; [apply Hgood|].
  - by split.
Qed.

Lemma goodCmd_dropped (c : cmdlist FP) : goodCmd (mkCmd (FP:=FP) (tokens c) None).
Proof. intros e. discriminate. Qed.

(** A check: a method that keeps the session authenticated and returns
    the command list or the list without its handler. *)
Lemma authInvC_check (m : M FP (cmdlist FP)) (c : cmdlist FP) :
  goodCmd c -> authInv FP m ->
  (forall s c', snd (m s) = Done c' -> c' = c \/ c' = mkCmd (FP:=FP) (tokens c) None) ->
  authInvC m.
Proof.
  intros Hc Hm Hres s Hs. split; [by apply Hm|].
  intros c' Hc'. destruct (Hres s c' Hc') as [->| ->];
    [done|apply goodCmd_dropped].
Qed.

Lemma authInvC_requireAuth (c : cmdlist FP) : goodCmd c -> authInvC (requireAuth c).
Proof.
  intros Hc. apply (authInvC_check _ c Hc).
  - unfold requireAuth. auth_inv.
  - intros s c'. unfold requireAuth. destruct (pe c); [|simpl; intros [= <-]; by left].
    unfold bind, gets. destruct (negb (Authenticated (id s))).
    + unfold sendStatement. destruct (_ <? _)%nat; [done|].
      simpl. intros [= <-]. by right.
    + simpl. intros [= <-]. by left.
Qed.

Lemma authInvC_requirePASV (c : cmdlist FP) : goodCmd c -> authInvC (requirePASV c).
Proof.
  intros Hc. apply (authInvC_check _ c Hc).
  - unfold requirePASV. auth_inv.
  - intros s c'. unfold requirePASV. destruct (pe c); [|simpl; intros [= <-]; by left].
    unfold bind, gets.
    destruct (match lastDataChanneler s with
              | Some dc => DataChannel.IsClosed dc
              | None => true
              end).
    + unfold sendStatement. destruct (_ <? _)%nat; [done|].
      simpl. intros [= <-]. by right.
    + simpl. intros [= <-]. by left.
Qed.

Lemma authInvC_resetREST (c : cmdlist FP) : goodCmd c -> authInvC (resetREST c).
Proof.
  intros Hc. apply (authInvC_check _ c Hc).
  - unfold resetREST. auth_inv.
  - intros s c'. simpl. intros [= <-]. by left.
Qed.

Lemma authInvC_resetUSER (c : cmdlist FP) : goodCmd c -> authInvC (resetUSER c).
Proof.
  intros Hc. apply (authInvC_check _ c Hc).
  - unfold resetUSER. auth_inv.
  - intros s c'. unfold resetUSER, bind, gets.
    destruct (negb (Authenticated (id s))); simpl; intros [= <-]; by left.
Qed.

Lemma authInv_Execute (m : M FP (cmdlist FP)) :
  authInvC m -> authInv FP (bind m Execute).
Proof.
  intros Hm s Hs. unfold bind. destruct (Hm s Hs) as [Hauth Hgood].
  destruct (m s) as [s' [c|why]]; simpl in *; [|done].
  unfold Execute. specialize (Hgood c eq_refl).
  destruct (pe c) as [entry|] eqn:Epe; [|done].
  by apply (Hgood entry).
Qed.

#[local] Hint Resolve authInvC_requireAuth authInvC_requirePASV
  authInvC_resetREST authInvC_resetUSER : auth.

(** A pipeline, from [Execute] back to [newCmdList]. *)
Ltac pipeline :=
  apply authInv_Execute;
  repeat (apply authInvC_bind; [|auto with auth]);
  apply authInvC_newCmdList; auto with auth.

(** Every command but [PASS] keeps an authenticated session
    authenticated. *)
Lemma authInv_dispatch w toks :
  head toks <> Some "PASS" -> authInv FP (dispatch w toks).
Proof.
  intros Hpass. unfold dispatch. destruct toks as [|tok0 args]; [auto with auth|].
  repeat match goal with
         | |- authInv _ (if String.eqb tok0 ?name then _ else _) =>
             destruct (String.eqb_spec tok0 name)
         end; try pipeline.
  - subst tok0. by destruct Hpass.
  - auth_inv.
Qed.

(** C10. From an authenticated session, a command leaves the session
    authenticated unless it is a [PASS] whose authenticator call returns
    [false]; and [USER name] stores [name] and leaves the session
    authenticated. *)
Theorem authenticated_until_rejected_PASS (ses : Session FP) (w : World)
    (toks : list string) :
  Authenticated (id ses) = true ->
  ((forall password more,
      toks = "PASS" :: password :: more ->
      authFunc ses (Username (id ses)) password = true) ->
   Authenticated (id (fst (dispatch w toks ses))) = true) /\
  (forall name more,
      toks = "USER" :: name :: more ->
      id (fst (dispatch w toks ses)) = BasicIdentity.New name true /\
      snd (dispatch w toks ses) = Done false).
Proof.
  intros Hauth. split.
  - intros Hpass.
    destruct (decide (head toks = Some "PASS")) as [Hhead|Hhead];
      [|by apply authInv_dispatch].
    destruct toks as [|tok0 [|password more]]; [done| |];
      injection Hhead as ->.
    + destruct ses as [c ce [u a] p l af fp e r k]. simpl in Hauth. subst a.
      vm_compute. reflexivity.
    + specialize (Hpass password more eq_refl).
      destruct ses as [c ce [u a] p l af fp e r k].
      simpl in Hauth, Hpass. subst a.
      vm_compute. rewrite Hpass. reflexivity.
  - intros name more ->.
    destruct ses as [c ce [u a] p l af fp e r k]. simpl in Hauth. subst a.
    vm_compute. split; reflexivity.
Qed.

(** Without [PASS] among the commands, the whole loop of [Handle] keeps
    an authenticated session authenticated. *)
Lemma authInv_commandLoop (input : list (World * list string)) :
  Forall (fun c => head (snd c) <> Some "PASS") input ->
  authInv FP (commandLoop input).
Proof.
  induction 1 as [|[w toks] rest Hhead _ IH]; simpl; [auto with auth|].
  apply authInv_bind; [by apply authInv_dispatch|].
  intros [|]; [auto with auth|exact IH].
Qed.

(** C9. A [PASS] whose password the authenticator rejects is answered
    [530 Password Rejected] and leaves the identity empty and not
    authenticated, whatever the user name was. *)
Theorem PASS_rejected (ses : Session FP) (w : World) (password : string)
    (more : list string) :
  authFunc ses (Username (id ses)) password = false ->
  let r := dispatch w ("PASS" :: password :: more) ses in
  snd r = Done false /\
  id (fst r) = BasicIdentity.New "" false /\
  bufw (conn (fst r)) = bufw (conn ses) ++ ["530 Password Rejected" +:+ CRLF].
Proof.
  intros Hrej r. subst r.
  vm_compute. vm_compute in Hrej. rewrite Hrej.
  repeat split.
Qed.

(** The sequence [USER name], [PASS password] with a rejected password
    leaves the identity empty and not authenticated. *)
Lemma USER_PASS_rejected (ses : Session FP) (w w' : World)
    (name password : string) :
  authFunc ses name password = false ->
  id (fst (commandLoop [(w, ["USER"; name]); (w', ["PASS"; password])] ses)) =
  BasicIdentity.New "" false.
Proof.
  intros Hrej. destruct ses as [c ce i p l af fp e r k]. simpl in Hrej.
  vm_compute. rewrite Hrej. reflexivity.
Qed.

(** *** [LIST] *)

(** The error path of [processLIST]: when the directory of the argument
    is entered and [List] fails, the handler returns with the provider as
    [List] left it, in the directory of the argument. *)
Lemma LIST_failure_not_restored (ses : Session FP) (arg : string)
    (more : list string) fp1 fp2 e :
  ChangeDirectory arg (fileProvider ses) = (fp1, None) ->
  List fp1 = (fp2, Fail e) ->
  fileProvider (fst (processLIST ("LIST" :: arg :: more) ses)) = fp2 /\
  snd (processLIST ("LIST" :: arg :: more) ses) = Done false.
Proof.
  intros Hcd Hlist.
  unfold processLIST, bind, gets, provider, index, ret. simpl.
  rewrite Hcd. simpl. rewrite Hlist. simpl.
  by split.
Qed.

(** *** [REST] *)

Lemma isDigit_literalByte c : Fmt.isDigit c = true -> Fmt.literalByte c = true.
Proof.
  unfold Fmt.isDigit, Fmt.literalByte. intros Hd.
  apply andb_true_iff in Hd as [Hlo Hhi].
  apply Nat.leb_le in Hlo, Hhi.
  destruct (Ascii.eqb_spec c "%"%char) as [->|_];
    [vm_compute in Hlo; lia|].
  rewrite andb_true_r. apply andb_true_iff.
  split; apply Nat.leb_le; lia.
Qed.

Lemma allDigits_literalFormat s :
  Fmt.allDigits s = true -> Fmt.literalFormat s = true.
Proof.
  induction s as [|c r IH]; simpl; [done|]. intros Hd.
  apply andb_true_iff in Hd as [Hc Hr].
  by rewrite isDigit_literalByte, IH.
Qed.

(** [Sscanf] with the arguments as [processREST] passes them: a decimal
    numeral is taken for the format and never matches the input [%d]. *)
Lemma Sscanf_decimal_format n :
  Fmt.decimal n = true ->
  Fmt.Sscanf "%d" n = mkScanned None (Some "input does not match format").
Proof.
  unfold Fmt.decimal, Fmt.Sscanf. intros Hn.
  apply andb_true_iff in Hn as [Hne Hd].
  rewrite allDigits_literalFormat by done.
  destruct n as [|c r]; [done|]. simpl in Hd |- *.
  apply andb_true_iff in Hd as [Hc _].
  destruct (Ascii.eqb_spec c "%"%char) as [->|_]; [done|done].
Qed.

(** For every decimal argument, [REST] on an authenticated session with
    an open data channel answers [550] and leaves the offset at [0]. *)
Lemma REST_decimal_rejected (ses : Session FP) (w : World) (n : string)
    (more : list string) dc :
  Fmt.decimal n = true ->
  Authenticated (id ses) = true ->
  lastDataChanneler ses = Some dc -> DataChannel.IsClosed dc = false ->
  dispatch w ("REST" :: n :: more) ses =
  (setConn (WriteString ("550 syntax error (input does not match format)"
                         +:+ CRLF) (conn ses))
           (setLastREST 0 ses),
   Done false).
Proof.
  intros Hn Hauth Hdc Hopen.
  destruct ses as [c ce [u a] p l af fp e r k].
  simpl in Hauth, Hdc. subst a l.
  unfold dispatch.
  switch_on "REST".
  unfold newCmdList, requireAuth, requirePASV, resetUSER, resetREST, Execute,
    processREST, bind, ret, gets, modify, index.
  simpl. rewrite Hopen. simpl.
  rewrite (Sscanf_decimal_format n Hn). reflexivity.
Qed.

(** *** The gate [requireAuth] *)

(** C1, amended. For the commands whose pipeline has [requireAuth] (the
    seventeen of [authCommands], [FEAT] among them), a session that is not
    authenticated answers [530 Please login with USER and PASS.] and the
    handler does not run; for [USER], [PASS], [QUIT], [NOOP], [SYST] and
    [AUTH] the handler runs, after the resets, whatever the flag. *)
Theorem requireAuth_gate (ses : Session FP) (w : World) (tok : string)
    (args : list string) :
  (In tok authCommands -> Authenticated (id ses) = false ->
   let r := dispatch w (tok :: args) ses in
   snd r = Done false /\
   bufw (conn (fst r)) =
     bufw (conn ses) ++ ["530 Please login with USER and PASS." +:+ CRLF] /\
   handlerFrame ses (fst r)) /\
  (In tok openCommands ->
   dispatch w (tok :: args) ses =
   bind (openResets tok) (fun _ => openHandler tok (tok :: args)) ses).
Proof.
  destruct ses as [c ce [u a] p l af fp e r k]. split.
  - intros Hin Hauth. simpl in Hauth. subst a.
    repeat (destruct Hin as [<-|Hin];
            [vm_compute; repeat split; reflexivity|]).
    destruct Hin.
  - intros Hin.
    repeat (destruct Hin as [<-|Hin];
            [destruct a; vm_compute; reflexivity|]).
    destruct Hin.
Qed.

(** A first token that is no command of the [switch] is answered
    [502 not implemented], authenticated or not. *)
Lemma unknown_command (ses : Session FP) (w : World) (tok : string)
    (args : list string) :
  ~ In tok (authCommands ++ openCommands) ->
  dispatch w (tok :: args) ses =
  (setConn (WriteString ("502 not implemented" +:+ CRLF) (conn ses)) ses,
   Done false).
Proof.
  intros Hno. unfold dispatch.
  repeat match goal with
         | |- context [String.eqb tok ?name] =>
             destruct (String.eqb_spec tok name) as [->|_];
               [exfalso; apply Hno; in_list|]
         end.
  reflexivity.
Qed.

End SessionFacts.

(** ** Runs of the session on the provider in memory *)

Section SessionRuns.
Import BasicIdentity FS SecurableConn Session Samples.

(** C1, as stated, fails. On a new session, which is not authenticated,
    [FEAT] is answered [530] and its handler does not run, although [FEAT]
    is in the list of the claim; and [ABOR], which is not in the list, is
    answered [502 not implemented], not [530]. *)
Lemma FEAT_requires_login :
  Authenticated (id fresh) = false /\
  dispatch quietWorld ["FEAT"] fresh =
    (setConn (WriteString ("530 Please login with USER and PASS." +:+ CRLF)
                          (conn fresh)) fresh,
     Done false) /\
  dispatch quietWorld ["FEAT"] fresh <> processFEAT ["FEAT"] fresh /\
  dispatch quietWorld ["ABOR"] fresh =
    (setConn (WriteString ("502 not implemented" +:+ CRLF) (conn fresh)) fresh,
     Done false).
Proof.
  split; [reflexivity|]. split; [vm_compute; reflexivity|].
  split; [vm_compute; discriminate|vm_compute; reflexivity].
Qed.

Lemma requireAuth_gate_witness :
  (let r := dispatch quietWorld ["LIST"; "/pub"] fresh in
   snd r = Done false /\
   bufw (conn (fst r)) =
     bufw (conn fresh) ++ ["530 Please login with USER and PASS." +:+ CRLF] /\
   handlerFrame fresh (fst r)) /\
  dispatch quietWorld ["SYST"] fresh =
    bind (openResets "SYST") (fun _ => openHandler "SYST" ["SYST"]) fresh.
Proof.
  split.
  - apply (requireAuth_gate fresh quietWorld "LIST" ["/pub"]);
      [in_list|reflexivity].
  - apply (requireAuth_gate fresh quietWorld "SYST" []). in_list.
Defined.

Lemma PASS_rejected_witness :
  let ses := after [["USER"; "bob"]] fresh in
  Username (id ses) = "bob" /\
  let r := dispatch quietWorld ["PASS"; "guess"] ses in
  snd r = Done false /\
  id (fst r) = BasicIdentity.New "" false /\
  bufw (conn (fst r)) = bufw (conn ses) ++ ["530 Password Rejected" +:+ CRLF].
Proof.
  split; [reflexivity|].
  apply (PASS_rejected (after [["USER"; "bob"]] fresh) quietWorld "guess" []).
  reflexivity.
Defined.

Lemma authenticated_until_rejected_PASS_witness :
  Authenticated (id loggedIn) = true /\
  Authenticated (id (fst (dispatch quietWorld ["CWD"; "/pub"] loggedIn))) = true /\
  id (fst (dispatch quietWorld ["USER"; "alice"] loggedIn)) =
    BasicIdentity.New "alice" true.
Proof.
  split; [reflexivity|]. split.
  - apply (authenticated_until_rejected_PASS loggedIn quietWorld
             ["CWD"; "/pub"] eq_refl).
    intros password more [=].
  - apply (proj2 (authenticated_until_rejected_PASS loggedIn quietWorld
                    ["USER"; "alice"] eq_refl) "alice" []).
    reflexivity.
Defined.

(** C2, on the code. [REST 5] on an authenticated session with an open
    data channel: the answer is [550 syntax error], not [350], and the
    offset stays [0]. *)
Theorem REST_5_rejected :
  Authenticated (id ready) = true /\
  (exists dc, lastDataChanneler ready = Some dc /\
              DataChannel.IsClosed dc = false) /\
  dispatch quietWorld ["REST"; "5"] ready =
    (setConn (WriteString ("550 syntax error (input does not match format)"
                           +:+ CRLF) (conn ready)) ready,
     Done false) /\
  lastREST (fst (dispatch quietWorld ["REST"; "5"] ready)) = 0%Z.
Proof.
  split; [reflexivity|]. split; [eexists; split; reflexivity|].
  split; vm_compute; reflexivity.
Qed.

(** C8, on the code. [LIST /locked] where the directory can be entered
    but not read: the listing fails with [451] and the current directory
    stays [/locked], not [/] as before the command. *)
Theorem LIST_failure_keeps_directory :
  CurrentDirectory (fileProvider ready) = "/" /\
  let r := dispatch quietWorld ["LIST"; "/locked"] ready in
  snd r = Done false /\
  bufw (conn (fst r)) =
    bufw (conn ready)
    ++ ["451 cannot retrieve directory list: permission denied" +:+ CRLF] /\
  CurrentDirectory (fileProvider (fst r)) = "/locked".
Proof. split; [reflexivity|]. vm_compute. repeat split. Qed.

(** When the listing succeeds the directory is restored. *)
Lemma LIST_success_restores_directory :
  let r := dispatch quietWorld ["LIST"; "/pub"] ready in
  snd r = Done false /\
  CurrentDirectory (fileProvider (fst r)) = "/" /\
  length (sunk (fst r)) = 1%nat.
Proof. vm_compute. repeat split. Qed.

End SessionRuns.

(** ** More on the port pool *)

Section PoolFacts.
Import PortAssigner.

(** What [firstFree] finds: the first slot, from [k] on, that is free and
    whose port passes the probe. *)
Lemma firstFree_Some netListen minPort slots : forall k i,
  firstFree netListen minPort k slots = Some i ->
  exists j, i = (k + j)%nat /\
    slots !! j = Some false /\
    netListen (Z.of_nat i + minPort)%Z = None /\
    forall j' b, (j' < j)%nat -> slots !! j' = Some b ->
      b = true \/ netListen (Z.of_nat (k + j') + minPort)%Z <> None.
Proof.
  induction slots as [|inUse rest IH]; intros k i Hff; [done|].
  simpl in Hff.
  destruct (negb inUse && bool_decide (netListen (Z.of_nat k + minPort)%Z = None))
    eqn:Ehere.
  - injection Hff as <-. apply andb_true_iff in Ehere as [Hfree Hprobe].
    apply negb_true_iff in Hfree as ->. apply bool_decide_eq_true in Hprobe.
    exists 0%nat. rewrite Nat.add_0_r. repeat split; [done|]. intros; lia.
  - destruct (IH (S k) i Hff) as (j & -> & Hj & Hprobe & Hlow).
    exists (S j). replace (k + S j)%nat with (S k + j)%nat by lia.
    repeat split; [done..|].
    intros [|j'] b Hlt Hb.
    + simpl in Hb. injection Hb as ->. rewrite Nat.add_0_r.
      apply andb_false_iff in Ehere as [Hfree|Hprobe'].
      * left. by apply negb_false_iff in Hfree.
      * right. by apply bool_decide_eq_false in Hprobe'.
    + replace (k + S j')%nat with (S k + j')%nat by lia.
      apply (Hlow j' b); [lia|done].
Qed.

Lemma firstFree_None netListen minPort slots : forall k,
  firstFree netListen minPort k slots = None <->
  forall j b, slots !! j = Some b ->
    b = true \/ netListen (Z.of_nat (k + j) + minPort)%Z <> None.
Proof.
  induction slots as [|inUse rest IH]; intros k; simpl.
  - split; [intros _ j b Hj; by rewrite lookup_nil in Hj|done].
  - destruct (negb inUse && bool_decide (netListen (Z.of_nat k + minPort)%Z = None))
      eqn:Ehere.
    + split; [done|]. intros Hall. exfalso.
      apply andb_true_iff in Ehere as [Hfree Hprobe].
      apply negb_true_iff in Hfree. apply bool_decide_eq_true in Hprobe.
      destruct (Hall 0%nat inUse eq_refl) as [->|Hne]; [done|].
      apply Hne. by rewrite Nat.add_0_r.
    + rewrite IH. split.
      * intros Hall [|j] b Hj.
        -- simpl in Hj. injection Hj as ->. rewrite Nat.add_0_r.
           apply andb_false_iff in Ehere as [Hfree|Hprobe].
           ++ left. by apply negb_false_iff in Hfree.
           ++ right. by apply bool_decide_eq_false in Hprobe.
        -- replace (k + S j)%nat with (S k + j)%nat by lia. by apply Hall.
      * intros Hall j b Hj.
        replace (S k + j)%nat with (k + S j)%nat by lia. by apply (Hall (S j)).
Qed.

Import PoolSpec.

Lemma slotOf_port pa i :
  slotOf pa (Z.of_nat i + minPASVPort pa)%Z = i.
Proof. unfold slotOf. lia. Qed.

(** The result of a successful [AssignPort]. *)
Lemma AssignPort_spec netListen pa pa' p :
  AssignPort netListen pa = Done (pa', Val p) ->
  inRange pa p /\
  cAssigned pa !! slotOf pa p = Some false /\
  netListen p = None /\
  (forall q, inRange pa q -> (q < p)%Z ->
     cAssigned pa !! slotOf pa q = Some true \/ netListen q <> None) /\
  cAssigned pa' = <[slotOf pa p := true]> (cAssigned pa) /\
  free pa' = (free pa - 1)%Z /\
  minPASVPort pa' = minPASVPort pa /\ maxPASVPort pa' = maxPASVPort pa.
Proof.
  unfold AssignPort. destruct (handlerClosed pa); [done|].
  destruct (firstFree netListen (minPASVPort pa) 0 (cAssigned pa)) as [i|]
    eqn:Eff; [|done].
  intros [= <- <-]. apply firstFree_Some in Eff as (j & -> & Hj & Hprobe & Hlow).
  simpl in *. rewrite slotOf_port.
  pose proof (lookup_lt_Some _ _ _ Hj) as Hlt.
  split; [unfold inRange; lia|]. split; [done|]. split; [done|].
  split; [|done].
  intros q [Hq1 Hq2] Hqp.
  assert (Hqj : (slotOf pa q < j)%nat) by (unfold slotOf; lia).
  destruct (lookup_lt_is_Some_2 (cAssigned pa) (slotOf pa q)) as [b Hb]; [lia|].
  destruct (Hlow _ b Hqj Hb) as [->|Hne]; [by left|right].
  replace q with (Z.of_nat (0 + slotOf pa q) + minPASVPort pa)%Z
    by (unfold slotOf; lia).
  exact Hne.
Qed.

(** X1. A successful [AssignPort] returns the lowest port of the pool
    whose slot is free and whose probe passes; it marks that slot, and
    only that slot, and counts one free port less. *)
Theorem AssignPort_lowest_free netListen pa pa' p :
  AssignPort netListen pa = Done (pa', Val p) ->
  inRange pa p /\
  cAssigned pa !! slotOf pa p = Some false /\
  netListen p = None /\
  (forall q, inRange pa q -> (q < p)%Z ->
     cAssigned pa !! slotOf pa q = Some true \/ netListen q <> None) /\
  cAssigned pa' = <[slotOf pa p := true]> (cAssigned pa) /\
  free pa' = (free pa - 1)%Z /\
  minPASVPort pa' = minPASVPort pa /\ maxPASVPort pa' = maxPASVPort pa.
Proof. apply AssignPort_spec. Qed.

Lemma AssignPort_lowest_free_witness :
  exists pa',
    AssignPort (fun _ => None) Samples.smallPool = Done (pa', Val 10000%Z) /\
    cAssigned pa' = [true; false] /\ free pa' = 1%Z.
Proof.
  eexists. split; [reflexivity|].
  destruct (AssignPort_lowest_free (fun _ => None) Samples.smallPool _ _
              eq_refl)
    as (_ & _ & _ & _ & Hslots & Hfree & _).
  split; [exact Hslots|exact Hfree].
Defined.

(** X2. [AssignPort] fails exactly when every slot is in use or fails
    the probe; it then reports [no more ports available] and changes
    nothing. *)
Theorem AssignPort_exhausted netListen pa :
  handlerClosed pa = false ->
  ((forall j b, cAssigned pa !! j = Some b ->
      b = true \/ netListen (Z.of_nat j + minPASVPort pa)%Z <> None) <->
   AssignPort netListen pa = Done (pa, Fail "no more ports available")) /\
  (forall pa' e, AssignPort netListen pa = Done (pa', Fail e) ->
     pa' = pa /\ e = "no more ports available").
Proof.
  intros Hopen. unfold AssignPort. rewrite Hopen.
  destruct (firstFree netListen (minPASVPort pa) 0 (cAssigned pa)) as [i|]
    eqn:Eff.
  - split; [|done]. split; [|done]. intros Hall.
    assert (Hnone : firstFree netListen (minPASVPort pa) 0 (cAssigned pa) = None)
      by (apply firstFree_None; exact Hall).
    congruence.
  - split; [|by intros pa' e [= <- <-]].
    split; [done|]. intros _ j b Hj.
    exact (proj1 (firstFree_None _ _ _ _) Eff j b Hj).
Qed.

Lemma AssignPort_exhausted_witness :
  AssignPort (fun _ => None) (mkPa 10000 10002 [true; true] 0 false) =
  Done (mkPa 10000 10002 [true; true] 0 false, Fail "no more ports available").
Proof.
  apply (AssignPort_exhausted (fun _ => None)
           (mkPa 10000 10002 [true; true] 0 false) eq_refl).
  intros [|[|j]] b Hb; simpl in Hb; try discriminate; injection Hb as <-;
    by left.
Defined.

(** X3. Two successive assignments never return the same port, whatever
    the probes answer. *)
Theorem AssignPort_distinct netListen netListen' pa pa1 pa2 p q :
  AssignPort netListen pa = Done (pa1, Val p) ->
  AssignPort netListen' pa1 = Done (pa2, Val q) ->
  p <> q.
Proof.
  intros H1 H2.
  apply AssignPort_spec in H1
    as ([Hp1 Hp2] & Hp & _ & _ & Hslots & _ & Hmin & _).
  apply AssignPort_spec in H2 as ([Hq1 Hq2] & Hq & _).
  intros <-. unfold slotOf in Hq. rewrite Hslots, Hmin in Hq.
  rewrite list_lookup_insert_eq in Hq; [done|].
  apply lookup_lt_Some in Hp. exact Hp.
Qed.

Lemma AssignPort_distinct_witness :
  exists pa1 pa2,
    AssignPort (fun _ => None) Samples.smallPool = Done (pa1, Val 10000%Z) /\
    AssignPort (fun _ => None) pa1 = Done (pa2, Val 10001%Z) /\
    10000%Z <> 10001%Z.
Proof.
  do 2 eexists. split; [reflexivity|]. split; [reflexivity|].
  apply (AssignPort_distinct (fun _ => None) (fun _ => None)
           Samples.smallPool _ _ _ _ eq_refl eq_refl).
Defined.

(** [ReleasePort] undoes the [AssignPort] that precedes it. *)
Lemma AssignPort_undo netListen pa pa' p :
  AssignPort netListen pa = Done (pa', Val p) ->
  ReleasePort p pa' = Done pa.
Proof.
  intros Ha.
  pose proof (AssignPort_spec _ _ _ _ Ha)
    as ([Hp1 Hp2] & Hp & _ & _ & Hslots & Hfree & Hmin & Hmax).
  unfold AssignPort in Ha. destruct (handlerClosed pa) eqn:Hopen; [done|].
  destruct (firstFree _ _ _ _); [|done]. injection Ha as <- _.
  unfold ReleasePort. simpl. rewrite ?Hopen, length_insert.
  destruct (Z.ltb_spec (p - minPASVPort pa) 0); [lia|].
  destruct (Z.leb_spec (Z.of_nat (length (cAssigned pa))) (p - minPASVPort pa));
    [lia|].
  simpl. f_equal. destruct pa as [mn mx slots fr cl]. simpl in *. subst cl.
  f_equal; [|lia].
  simpl in Hslots. unfold slotOf in Hslots, Hp. simpl in Hslots, Hp.
  rewrite Hslots, list_insert_insert_eq. by apply list_insert_id.
Qed.

(** X4. Releasing the port that was just assigned gives back the pool as
    it was before the assignment, counter included. *)
Theorem AssignPort_ReleasePort netListen pa pa' p :
  AssignPort netListen pa = Done (pa', Val p) ->
  ReleasePort p pa' = Done pa.
Proof. apply AssignPort_undo. Qed.

Lemma AssignPort_ReleasePort_witness :
  exists pa',
    AssignPort (fun _ => None) Samples.smallPool = Done (pa', Val 10000%Z) /\
    ReleasePort 10000 pa' = Done Samples.smallPool.
Proof.
  eexists. split; [reflexivity|].
  apply (AssignPort_ReleasePort (fun _ => None) Samples.smallPool _ _ eq_refl).
Defined.

End PoolFacts.

Section PoolCounterFacts.
Import PortAssigner PoolSpec.

Lemma freeSlots_insert (slots : list bool) : forall (i : nat) (b b' : bool),
  slots !! i = Some b ->
  freeSlots (<[i := b']> slots) =
  (freeSlots slots - (if b then 0 else 1) + (if b' then 0 else 1))%Z.
Proof.
  induction slots as [|x rest IH]; intros [|i] b b' Hi; simpl in *;
    try discriminate.
  - injection Hi as ->. lia.
  - rewrite (IH i b b' Hi). lia.
Qed.

Lemma freeSlots_replicate n : freeSlots (replicate n false) = Z.of_nat n.
Proof. induction n as [|n IH]; simpl; [done|]. rewrite IH. lia. Qed.

(** X5. The counter [free] agrees with the slots in a new pool; an
    assignment keeps the agreement, and so does the release of a port
    that is in use. The release of a port that is already free counts it
    a second time. *)
Theorem free_counter_consistent :
  (forall minPort maxPort pa, New minPort maxPort = Done pa -> consistent pa) /\
  (forall netListen (pa pa' : paService) (r : goerr Z),
     consistent pa -> AssignPort netListen pa = Done (pa', r) -> consistent pa') /\
  (forall (port : Z) (pa pa' : paService) (inUse : bool),
     consistent pa -> ReleasePort port pa = Done pa' ->
     cAssigned pa !! slotOf pa port = Some inUse ->
     free pa' = (freeSlots (cAssigned pa') + (if inUse then 0 else 1))%Z).
Proof.
  unfold consistent. repeat split.
  - intros mn mx pa. unfold New. destruct (mx - mn <? 0)%Z eqn:Eneg; [done|].
    intros [= <-]. simpl. rewrite freeSlots_replicate.
    apply Z.ltb_ge in Eneg. lia.
  - intros nl pa pa' r Hc Ha. destruct r as [p|e].
    + apply AssignPort_spec in Ha as (_ & Hp & _ & _ & -> & -> & _).
      rewrite (freeSlots_insert _ _ false true Hp). lia.
    + unfold AssignPort in Ha. destruct (handlerClosed pa); [done|].
      destruct (firstFree _ _ _ _); [done|]. by injection Ha as <-.
  - intros port pa pa' inUse Hc Hr Hslot. unfold ReleasePort in Hr.
    destruct (handlerClosed pa); [done|].
    destruct (_ || _); [done|]. injection Hr as <-. simpl.
    fold (slotOf pa port).
    rewrite (freeSlots_insert _ _ inUse false Hslot), Hc.
    destruct inUse; lia.
Qed.

Lemma free_counter_consistent_witness :
  consistent Samples.smallPool /\
  (forall pa', ReleasePort 10000 (mkPa 10000 10002 [true; false] 1 false)
               = Done pa' -> consistent pa') /\
  (forall pa', ReleasePort 10000 Samples.smallPool = Done pa' ->
               free pa' = (freeSlots (cAssigned pa') + 1)%Z).
Proof.
  destruct free_counter_consistent as (Hnew & _ & Hrel).
  split; [apply (Hnew 10000%Z 10002%Z); reflexivity|]. split.
  - intros pa' Hr. unfold consistent.
    rewrite (Hrel 10000%Z (mkPa 10000 10002 [true; false] 1 false) pa' true);
      [lia|reflexivity|exact Hr|reflexivity].
  - intros pa' Hr.
    apply (Hrel 10000%Z Samples.smallPool pa' false);
      [reflexivity|exact Hr|reflexivity].
Defined.

(** X6. On a pool that is not closed, [ReleasePort] frees the slot of a
    port of the pool and leaves the other slots alone; for any other
    port the index is out of range and the call panics. *)
Theorem ReleasePort_range (port : Z) (pa : paService) :
  handlerClosed pa = false ->
  (inRange pa port ->
   exists pa', ReleasePort port pa = Done pa' /\
     cAssigned pa' !! slotOf pa port = Some false /\
     forall j, j <> slotOf pa port -> cAssigned pa' !! j = cAssigned pa !! j) /\
  (~ inRange pa port -> ReleasePort port pa = Aborted Panic).
Proof.
  intros Hopen. unfold ReleasePort, inRange. rewrite Hopen. split.
  - intros [Hlo Hhi].
    destruct (Z.ltb_spec (port - minPASVPort pa) 0); [lia|].
    destruct (Z.leb_spec (Z.of_nat (length (cAssigned pa)))
                (port - minPASVPort pa)); [lia|].
    eexists. split; [reflexivity|]. simpl. fold (slotOf pa port). split.
    + apply list_lookup_insert_eq. unfold slotOf. lia.
    + intros j Hj. by apply list_lookup_insert_ne.
  - intros Hout.
    destruct (Z.ltb_spec (port - minPASVPort pa) 0); [done|].
    destruct (Z.leb_spec (Z.of_nat (length (cAssigned pa)))
                (port - minPASVPort pa)); [done|].
    exfalso. apply Hout. lia.
Qed.

Lemma ReleasePort_range_witness :
  ReleasePort 0 Samples.smallPool = Aborted Panic /\
  exists pa', ReleasePort 10001 Samples.smallPool = Done pa' /\
    cAssigned pa' !! 1%nat = Some false.
Proof.
  destruct (ReleasePort_range 0 Samples.smallPool eq_refl) as [_ Hout].
  destruct (ReleasePort_range 10001 Samples.smallPool eq_refl) as [Hin _].
  split.
  - apply Hout. unfold inRange. simpl. lia.
  - destruct Hin as (pa' & Hr & Hslot & _); [unfold inRange; simpl; lia|].
    exists pa'. split; [exact Hr|exact Hslot].
Defined.

End PoolCounterFacts.

(** ** More on the data channel *)

Section ChannelPoolFacts.
Import PortAssigner PoolSpec DataChannel.

(** X7. The two numbers that [ToPASVStringPort] prints recombine to the
    port: [hi * 256 + lo] with [lo] a byte; for a 16-bit port [hi] is a
    byte too. *)
Theorem ToPASVStringPort_recombines dc :
  exists hi lo,
    ToPASVStringPort dc = itoa hi +:+ "," +:+ itoa lo /\
    port dc = (hi * 256 + lo)%Z /\ (0 <= lo < 256)%Z /\
    ((0 <= port dc < 65536)%Z -> (0 <= hi < 256)%Z).
Proof.
  exists (Z.shiftr (port dc) 8), (port dc - Z.shiftr (port dc) 8 * 256)%Z.
  split; [reflexivity|].
  rewrite Z.shiftr_div_pow2 by lia. change (2 ^ 8)%Z with 256%Z.
  pose proof (Z.div_mod (port dc) 256 ltac:(lia)) as Hdm.
  pose proof (Z.mod_pos_bound (port dc) 256 ltac:(lia)) as Hmod.
  repeat split; lia.
Qed.

Lemma ToPASVStringPort_recombines_witness :
  exists hi lo,
    ToPASVStringPort (mkDc false 10001 false false false false false 0)
      = itoa hi +:+ "," +:+ itoa lo /\
    10001%Z = (hi * 256 + lo)%Z /\ (0 <= lo < 256)%Z /\ (0 <= hi < 256)%Z.
Proof.
  destruct (ToPASVStringPort_recombines
              (mkDc false 10001 false false false false false 0))
    as (hi & lo & Hs & Hp & Hlo & Hhi).
  exists hi, lo. repeat split; try tauto; try apply Hhi; simpl; lia.
Defined.

(** X8. A channel that is made and closed leaves the pool as it was,
    unless its port is 0: then [Close] takes the channel for one without
    a port and the slot stays in use. *)
Theorem New_Close_pool netListen (pa pa' : paService) hasCert enc
    (dc : dataChannel) :
  DataChannel.New netListen pa hasCert enc = Done (pa', Val dc) ->
  exists dc',
    Close dc pa' = Done (dc', if (port dc =? 0)%Z then pa' else pa) /\
    cAssigned pa' !! slotOf pa (port dc) = Some true.
Proof.
  unfold DataChannel.New.
  destruct (AssignPort netListen pa) as [[pa1 [p|e]]|why] eqn:Ea; [|done..].
  intros [= <- <-]. simpl.
  pose proof (AssignPort_spec _ _ _ _ Ea)
    as (_ & Hp & _ & _ & Hslots & _).
  assert (Hset : cAssigned pa1 !! slotOf pa p = Some true).
  { rewrite Hslots. apply list_lookup_insert_eq. by apply lookup_lt_Some in Hp. }
  unfold Close. simpl.
  destruct (p =? 0)%Z eqn:Ep; simpl.
  - eexists. split; [reflexivity|exact Hset].
  - rewrite (AssignPort_undo _ _ _ _ Ea).
    eexists. split; [reflexivity|exact Hset].
Qed.

Lemma New_Close_pool_witness :
  (exists pa' dc dc',
     DataChannel.New (fun _ => None) Samples.smallPool false false
       = Done (pa', Val dc) /\
     Close dc pa' = Done (dc', Samples.smallPool)) /\
  (exists pa' dc dc',
     DataChannel.New (fun _ => None) (mkPa 0 2 [false; false] 2 false)
       false false = Done (pa', Val dc) /\
     Close dc pa' = Done (dc', pa') /\ cAssigned pa' = [true; false]).
Proof.
  split.
  - destruct (New_Close_pool (fun _ => None) Samples.smallPool _ false false _
                eq_refl) as (dc' & Hc & _).
    do 3 eexists. split; [reflexivity|exact Hc].
  - destruct (New_Close_pool (fun _ => None) (mkPa 0 2 [false; false] 2 false)
                _ false false _ eq_refl) as (dc' & Hc & _).
    do 3 eexists. split; [reflexivity|]. split; [exact Hc|reflexivity].
Defined.

End ChannelPoolFacts.

(** ** The dispatch as a table *)

Section DispatchFacts.
Import BasicIdentity FS SecurableConn Session SessionSpec.
Context {FP : Type} `{FileProvider FP} `{GoLib}.

Lemma among_false tok names : ~ In tok names -> among tok names = false.
Proof.
  intros Hno. unfold among. apply not_true_is_false. intros Hex.
  apply existsb_exists in Hex as (name & Hin & Heq).
  apply String.eqb_eq in Heq as <-. by apply Hno.
Qed.

(** The four cases of [dispatch] on a command. *)
Lemma dispatch_cases (ses : Session FP) (w : World) (tok : string)
    (args : list string) :
  dispatch w (tok :: args) ses =
  match verdictOf tok ses with
  | Unknown => refuse "502 not implemented" ses
  | NeedLogin =>
      refuse "530 Please login with USER and PASS." (checkState tok ses)
  | NeedPASV => refuse "425 Use PASV or EPSV first" (checkState tok ses)
  | Run => handlerOf w tok (tok :: args) (checkState tok ses)
  end.
Proof.
  destruct (in_dec string_dec tok knownCommands) as [Hin|Hout].
  - destruct ses as [c ce [u a] p l af fp e r k].
    repeat (destruct Hin as [<-|Hin];
            [destruct a, l as [[dce [|dp|dp] dl dcn ds den df dk]|];
               vm_compute; reflexivity|]).
    destruct Hin.
  - unfold verdictOf. rewrite (among_false _ _ Hout). simpl.
    by apply unknown_command.
Qed.

(** X9. [Handle] on a command is the table of its pipelines: a first
    token outside the [switch] is answered [502]; a command that needs a
    login on a session without one, [530]; a command that needs a data
    channel on a session without one, [425]; any other command runs its
    handler, on the session as the resets of its pipeline leave it. The
    refused commands change nothing else. *)
Theorem dispatch_table (ses : Session FP) (w : World) (tok : string)
    (args : list string) :
  dispatch w (tok :: args) ses =
  match verdictOf tok ses with
  | Unknown => refuse "502 not implemented" ses
  | NeedLogin =>
      refuse "530 Please login with USER and PASS." (checkState tok ses)
  | NeedPASV => refuse "425 Use PASV or EPSV first" (checkState tok ses)
  | Run => handlerOf w tok (tok :: args) (checkState tok ses)
  end.
Proof. apply dispatch_cases. Qed.

End DispatchFacts.

(** ** Properties kept by every handler *)

Section KeepsFacts.
Import BasicIdentity FS SecurableConn Session SessionSpec.
Context {FP : Type} `{FileProvider FP} `{GoLib}.

Lemma substring_all (r : string) : substring 0 (String.length r) r = r.
Proof. induction r as [|d r IH]; simpl; [done|]. by rewrite IH. Qed.

Lemma substring_split (s : string) : forall k,
  (k <= String.length s)%nat ->
  s = substring 0 k s +:+ substring k (String.length s - k) s.
Proof.
  induction s as [|c r IH]; intros [|k] Hk; simpl in *; try lia.
  - reflexivity.
  - change (String c r = String c (substring 0 (String.length r) r)).
    by rewrite substring_all.
  - change (String c r =
            String c (substring 0 k r +:+ substring k (String.length r - k) r)).
    f_equal. apply IH. lia.
Qed.

(** The line that [sendStatement] writes ends with CR LF. *)
Lemma sendStatement_line statement :
  endsCRLF (if String.eqb (substring (String.length statement - 2) 2 statement)
                          CRLF
            then statement else statement +:+ CRLF).
Proof.
  destruct (String.eqb_spec
              (substring (String.length statement - 2) 2 statement) CRLF)
    as [Hend|_]; [|by exists statement].
  destruct (le_lt_dec 2 (String.length statement)) as [Hlen|Hlen].
  - exists (substring 0 (String.length statement - 2) statement).
    rewrite <- Hend.
    pose proof (substring_split statement (String.length statement - 2)
                  ltac:(lia)) as Hs.
    replace (String.length statement - (String.length statement - 2))%nat
      with 2%nat in Hs by lia.
    exact Hs.
  - exfalso. destruct statement as [|a [|b [|c r]]]; simpl in *;
      try discriminate; lia.
Qed.

Section Stable.
Variable I : Session FP -> Prop.
Hypothesis HI : stable I.

Lemma keeps_ret {A} (a : A) : keeps FP I (ret a).
Proof. intros s Hs. exact Hs. Qed.

Lemma keeps_abortWith {A} why : keeps FP I (abortWith (A:=A) why).
Proof. intros s Hs. exact Hs. Qed.

Lemma keeps_gets {A} (f : Session FP -> A) : keeps FP I (gets f).
Proof. intros s Hs. exact Hs. Qed.

Lemma keeps_bind {A B} (m : M FP A) (k : A -> M FP B) :
  keeps FP I m -> (forall a, keeps FP I (k a)) -> keeps FP I (bind m k).
Proof.
  intros Hm Hk s Hs. unfold bind. specialize (Hm s Hs).
  destruct (m s) as [s' [a|why]]; simpl in *; [by apply Hk|done].
Qed.

Lemma keeps_modify (f : Session FP -> Session FP) :
  (forall s, I s -> I (f s)) -> keeps FP I (modify f).
Proof. intros Hf s Hs. by apply Hf. Qed.

Lemma keeps_sendStatement statement : keeps FP I (sendStatement statement).
Proof.
  unfold sendStatement.
  destruct (String.length statement <? 2)%nat; [apply keeps_abortWith|].
  apply keeps_modify. intros s Hs.
  apply (st_write I HI); [apply sendStatement_line|exact Hs].
Qed.

Lemma keeps_index xs i : keeps FP I (index xs i).
Proof.
  unfold index. destruct (xs !! i); [apply keeps_ret|apply keeps_abortWith].
Qed.

Lemma keeps_cleared p : keeps FP I (cleared p).
Proof.
  unfold cleared.
  destruct (Path.clearPath p); [apply keeps_ret|apply keeps_abortWith].
Qed.

Lemma keeps_provider {A} (op : FP -> FP * A) : keeps FP I (provider op).
Proof.
  intros s Hs. unfold provider. destruct (op (fileProvider s)). simpl.
  by apply (st_fp I HI).
Qed.

Lemma keeps_closeChannel dc : keeps FP I (closeChannel dc).
Proof.
  intros s Hs. unfold closeChannel.
  destruct (DataChannel.Close dc (pa s)) as [[dc' pa']|why]; [|done].
  by apply (st_pa I HI).
Qed.

Lemma keeps_Sink dc f : keeps FP I (Sink dc f).
Proof.
  unfold Sink. destruct dc as [d|]; [|apply keeps_abortWith].
  destruct (DataChannel.fncChan d); [|apply keeps_abortWith].
  apply keeps_modify. intros s Hs. by apply (st_sunk I HI).
Qed.

Lemma keeps_newChannel w : keeps FP I (newChannel w).
Proof.
  intros s Hs. unfold newChannel.
  destruct (DataChannel.New _ _ _ _) as [[pa' [dc|e]]|why]; [| |done];
    simpl; by apply (st_dc I HI), (st_pa I HI).
Qed.

Lemma keeps_switchToTLS : keeps FP I switchToTLS.
Proof.
  intros s Hs. unfold switchToTLS.
  destruct (SwitchToTLS (conn s)) eqn:Etls; [|done].
  by apply (st_tls I HI).
Qed.

End Stable.

End KeepsFacts.

Create HintDb keeps.

#[export] Hint Resolve keeps_ret keeps_abortWith keeps_gets
  keeps_sendStatement keeps_index keeps_cleared keeps_provider
  keeps_closeChannel keeps_Sink keeps_newChannel keeps_switchToTLS : keeps.

(** One step of a proof that a method keeps a stable property. *)
Ltac keeps_step :=
  match goal with
  | |- SessionSpec.keeps _ _ (Session.bind _ _) =>
      apply keeps_bind; [|intros ?]
  | |- SessionSpec.keeps _ _ (Session.modify _) =>
      apply keeps_modify; intros ? ?;
      first [ eapply SessionSpec.st_dc | eapply SessionSpec.st_enc ];
      eassumption
  | |- SessionSpec.keeps _ _ (if ?b then _ else _) => destruct b
  | |- SessionSpec.keeps _ _ (match ?x with _ => _ end) => destruct x
  | |- SessionSpec.keeps _ _ _ => solve [eauto with keeps]
  end.

Ltac keeps_all := repeat keeps_step.

Section HandlersKeep.
Import BasicIdentity FS SecurableConn Session SessionSpec.
Context {FP : Type} `{FileProvider FP} `{GoLib}.
Variable I : Session FP -> Prop.
Hypothesis HI : stable I.

Lemma keeps_retrievePassivePort w : keeps FP I (retrievePassivePort w).
Proof. unfold retrievePassivePort. keeps_all. Qed.

Lemma keeps_openLast w : keeps FP I (openLast w).
Proof. unfold openLast. keeps_all. Qed.

Hint Resolve keeps_retrievePassivePort keeps_openLast : keeps.

Lemma keeps_processSYST toks : keeps FP I (processSYST toks).
Proof. unfold processSYST. keeps_all. Qed.

Lemma keeps_processQUIT toks : keeps FP I (processQUIT toks).
Proof. unfold processQUIT. keeps_all. Qed.

Lemma keeps_processNOOP toks : keeps FP I (processNOOP toks).
Proof. unfold processNOOP. keeps_all. Qed.

Lemma keeps_processFEAT toks : keeps FP I (processFEAT toks).
Proof. unfold processFEAT. keeps_all. Qed.

Lemma keeps_processPWD toks : keeps FP I (processPWD toks).
Proof. unfold processPWD. keeps_all. Qed.

Lemma keeps_processCWD toks : keeps FP I (processCWD toks).
Proof. unfold processCWD. keeps_all. Qed.

Lemma keeps_processCDUP toks : keeps FP I (processCDUP toks).
Proof. unfold processCDUP. apply keeps_processCWD. Qed.

Lemma keeps_processSTOR toks : keeps FP I (processSTOR toks).
Proof. unfold processSTOR. keeps_all. Qed.

Lemma keeps_processLIST toks : keeps FP I (processLIST toks).
Proof. unfold processLIST. keeps_all. Qed.

Lemma keeps_processNLST toks : keeps FP I (processNLST toks).
Proof. unfold processNLST. keeps_all. Qed.

Lemma keeps_processPASV w toks : keeps FP I (processPASV w toks).
Proof. unfold processPASV. keeps_all. Qed.

Lemma keeps_processEPSV w toks : keeps FP I (processEPSV w toks).
Proof. unfold processEPSV. keeps_all. Qed.

Lemma keeps_processTYPE toks : keeps FP I (processTYPE toks).
Proof. unfold processTYPE. keeps_all. Qed.

Lemma keeps_processSIZE toks : keeps FP I (processSIZE toks).
Proof. unfold processSIZE. keeps_all. Qed.

Lemma keeps_processMKD toks : keeps FP I (processMKD toks).
Proof. unfold processMKD. keeps_all. Qed.

Lemma keeps_processRMD toks : keeps FP I (processRMD toks).
Proof. unfold processRMD. keeps_all. Qed.

Lemma keeps_processDELE toks : keeps FP I (processDELE toks).
Proof. unfold processDELE. keeps_all. Qed.

Lemma keeps_processAUTH toks : keeps FP I (processAUTH toks).
Proof. unfold processAUTH. keeps_all. Qed.

Lemma keeps_processPROT toks : keeps FP I (processPROT toks).
Proof. unfold processPROT. keeps_all. Qed.

(** The handlers that write the offset or the identity keep a property
    that does not depend on them. *)
Lemma keeps_processRETR toks :
  (forall s, I s -> I (setLastREST 0 s)) -> keeps FP I (processRETR toks).
Proof.
  intros Hrest. unfold processRETR.
  apply keeps_bind; [eauto with keeps|intros rest].
  apply keeps_bind; [by apply keeps_modify|intros _]. keeps_all.
Qed.

Lemma keeps_processREST toks :
  (forall s v, I s -> I (setLastREST v s)) -> keeps FP I (processREST toks).
Proof.
  intros Hrest. unfold processREST.
  destruct (length toks <? 1)%nat; [keeps_all|].
  apply keeps_bind; [eauto with keeps|intros t].
  apply keeps_bind; [|intros _; keeps_all].
  destruct (stored (Fmt.Sscanf "%d" t)); [|eauto with keeps].
  apply keeps_modify. intros s. apply Hrest.
Qed.

Lemma keeps_processUSER toks :
  (forall s i, I s -> I (setId i s)) -> keeps FP I (processUSER toks).
Proof.
  intros Hid. unfold processUSER.
  destruct (length toks <? 2)%nat; [keeps_all|].
  apply keeps_bind; [eauto with keeps|intros name].
  apply keeps_bind; [apply keeps_modify; intros s; apply Hid|intros _].
  keeps_all.
Qed.

Lemma keeps_processPASS toks :
  (forall s i, I s -> I (setId i s)) -> keeps FP I (processPASS toks).
Proof.
  intros Hid. unfold processPASS.
  destruct (length toks <? 2)%nat; [keeps_all|].
  apply keeps_bind; [eauto with keeps|intros password].
  apply keeps_bind; [eauto with keeps|intros ok].
  destruct (negb ok).
  - apply keeps_bind; [apply keeps_modify; intros s; apply Hid|intros _].
    apply keeps_bind; [apply keeps_modify; intros s; apply Hid|intros _].
    keeps_all.
  - apply keeps_bind; [apply keeps_modify; intros s; apply Hid|intros _].
    keeps_all.
Qed.

End HandlersKeep.

Section DispatchKeeps.
Import BasicIdentity FS SecurableConn Session SessionSpec.
Context {FP : Type} `{FileProvider FP} `{GoLib}.

Lemma endsCRLF_statement statement : endsCRLF (statement +:+ CRLF).
Proof. by exists statement. Qed.

(** A stable property that depends neither on the identity nor on the
    offset is kept by every handler of the [switch]. *)
Lemma keeps_handlerOf (I : Session FP -> Prop) w tok toks :
  stable I ->
  (forall s v, I s -> I (setLastREST v s)) ->
  (forall s i, I s -> I (setId i s)) ->
  keeps FP I (handlerOf w tok toks).
Proof.
  intros HI Hrest Hid. unfold handlerOf.
  repeat match goal with
         | |- keeps _ _ ((if ?b then _ else _) _) => destruct b
         end;
    eauto using keeps_processSYST, keeps_processQUIT, keeps_processNOOP,
      keeps_processFEAT, keeps_processPWD, keeps_processCWD,
      keeps_processCDUP, keeps_processSTOR, keeps_processLIST,
      keeps_processNLST, keeps_processPASV, keeps_processEPSV,
      keeps_processTYPE, keeps_processSIZE, keeps_processMKD,
      keeps_processRMD, keeps_processDELE, keeps_processAUTH,
      keeps_processPROT, keeps_processRETR, keeps_processREST,
      keeps_processUSER, keeps_processPASS.
Qed.

Lemma keeps_dispatch (I : Session FP -> Prop) w toks :
  stable I ->
  (forall s v, I s -> I (setLastREST v s)) ->
  (forall s i, I s -> I (setId i s)) ->
  keeps FP I (dispatch w toks).
Proof.
  intros HI Hrest Hid s Hs. destruct toks as [|tok args]; [exact Hs|].
  rewrite dispatch_cases.
  assert (Hcheck : I (checkState tok s)).
  { unfold checkState.
    destruct (among tok ["USER"; "PASS"] || Authenticated (id s)),
      (String.eqb tok "RETR"); auto. }
  destruct (verdictOf tok s); unfold refuse; simpl.
  - apply (st_write I HI); [apply endsCRLF_statement|exact Hs].
  - apply (st_write I HI); [apply endsCRLF_statement|exact Hcheck].
  - apply (st_write I HI); [apply endsCRLF_statement|exact Hcheck].
  - by apply keeps_handlerOf.
Qed.

Lemma keeps_commandLoop (I : Session FP -> Prop) input :
  stable I ->
  (forall s v, I s -> I (setLastREST v s)) ->
  (forall s i, I s -> I (setId i s)) ->
  keeps FP I (commandLoop input).
Proof.
  intros HI Hrest Hid. induction input as [|[w toks] rest IH]; simpl.
  - by apply keeps_ret.
  - apply keeps_bind; [by apply keeps_dispatch|].
    intros [|]; [by apply keeps_ret|exact IH].
Qed.

Lemma wireOk_stable : stable (wireOk (FP:=FP)).
Proof.
  unfold wireOk. split; intros; simpl; try assumption.
  - apply Forall_app. split; [assumption|]. by repeat constructor.
  - unfold SwitchToTLS in *. destruct (SecurableConn.cert (conn s)); [|done].
    match goal with Hc : Done _ = Done _ |- _ => injection Hc as <- end.
    assumption.
Qed.


(** *** The result of the handlers *)

Lemma returns_ret {A} (R : A -> Prop) (a : A) : R a -> returns FP R (ret a).
Proof. intros Ha s a' [= <-]. exact Ha. Qed.

Lemma returns_abortWith {A} (R : A -> Prop) why :
  returns FP R (abortWith (A:=A) why).
Proof. intros s a. discriminate. Qed.

Lemma returns_bind {A B} (R : B -> Prop) (m : M FP A) (k : A -> M FP B) :
  (forall a, returns FP R (k a)) -> returns FP R (bind m k).
Proof.
  intros Hk s b. unfold bind.
  destruct (m s) as [s' [a|why]]; [apply Hk|discriminate].
Qed.

End DispatchKeeps.

(** One step of a proof that a handler returns [false]. *)
Ltac returns_step :=
  match goal with
  | |- SessionSpec.returns _ _ (Session.bind _ _) =>
      apply returns_bind; intros ?
  | |- SessionSpec.returns _ _ (Session.ret _) =>
      apply returns_ret; reflexivity
  | |- SessionSpec.returns _ _ (Session.abortWith _) =>
      apply returns_abortWith
  | |- SessionSpec.returns _ _ (if ?b then _ else _) => destruct b
  | |- SessionSpec.returns _ _ (match ?x with _ => _ end) => destruct x
  end.

Section OnlyQuit.
Import BasicIdentity FS SecurableConn Session SessionSpec.
Context {FP : Type} `{FileProvider FP} `{GoLib}.

Lemma returns_handlerOf w tok toks :
  tok <> "QUIT" -> returns FP (fun b => b = false) (handlerOf w tok toks).
Proof.
  intros Hq. unfold handlerOf.
  repeat match goal with
         | |- returns _ _ ((if String.eqb tok ?n then _ else _) _) =>
             destruct (String.eqb_spec tok n)
         end; try done;
    unfold processUSER, processPASS, processPWD, processTYPE, processPASV,
      processEPSV, processLIST, processSYST, processCWD, processCDUP,
      processCWD, processSIZE, processRETR, processSTOR, processFEAT,
      processNOOP, processMKD, processRMD, processDELE, processREST,
      processNLST, processAUTH, processPROT;
    repeat returns_step.
Qed.

(** X11. [QUIT] is the only command that ends the loop of [Handle]: a
    command whose handling returns [true] has [QUIT] as first token, and
    [QUIT] is answered [221 Goodbye.] whatever the session, after which
    no further command is handled. *)
Theorem only_QUIT_terminates (ses : Session FP) (w : World)
    (toks : list string) (rest : list (World * list string)) :
  (snd (dispatch w toks ses) = Done true -> head toks = Some "QUIT") /\
  (head toks = Some "QUIT" ->
   commandLoop ((w, toks) :: rest) ses =
   (setConn (WriteString ("221 Goodbye." +:+ CRLF) (conn (checkState "QUIT" ses)))
            (checkState "QUIT" ses),
    Done tt)).
Proof.
  split.
  - destruct toks as [|tok args]; [discriminate|].
    rewrite dispatch_cases. intros Hres.
    destruct (String.eqb_spec tok "QUIT") as [->|Hne]; [done|exfalso].
    destruct (verdictOf tok ses); try discriminate.
    by apply (returns_handlerOf w tok (tok :: args) Hne) in Hres.
  - destruct toks as [|tok args]; [discriminate|]. intros [= ->].
    destruct ses as [c ce [u a] p l af fp e r k].
    destruct a; vm_compute; reflexivity.
Qed.

End OnlyQuit.

Section DispatchRuns.
Import BasicIdentity FS SecurableConn Session SessionSpec Samples.


Lemma only_QUIT_terminates_witness :
  head ["QUIT"] = Some "QUIT" /\
  snd (dispatch quietWorld ["QUIT"] fresh) = Done true /\
  bufw (conn (fst (commandLoop [(quietWorld, ["QUIT"]);
                                (quietWorld, ["USER"; "bob"])] fresh))) =
    ["221 Goodbye." +:+ CRLF].
Proof.
  split; [reflexivity|]. split; [reflexivity|].
  rewrite (proj2 (only_QUIT_terminates fresh quietWorld ["QUIT"]
                    [(quietWorld, ["USER"; "bob"])]) eq_refl).
  reflexivity.
Defined.

End DispatchRuns.

(** ** Resets *)

Section ResetFacts.
Import BasicIdentity FS SecurableConn Session SessionSpec.
Context {FP : Type} `{FileProvider FP} `{GoLib}.

(** A stable property is kept by the handler of [tok] when the writes of
    that handler to the identity and to the offset keep it. *)
Lemma keeps_handlerOf_but (I : Session FP -> Prop) w tok toks :
  stable I ->
  (tok = "RETR" -> forall s, I s -> I (setLastREST 0 s)) ->
  (tok = "REST" -> forall s v, I s -> I (setLastREST v s)) ->
  (tok = "USER" \/ tok = "PASS" -> forall s i, I s -> I (setId i s)) ->
  keeps FP I (handlerOf w tok toks).
Proof.
  intros HI Hretr Hrest Hid. unfold handlerOf.
  repeat match goal with
         | |- keeps _ _ ((if String.eqb tok ?n then _ else _) _) =>
             destruct (String.eqb_spec tok n)
         end;
    eauto using keeps_processSYST, keeps_processQUIT, keeps_processNOOP,
      keeps_processFEAT, keeps_processPWD, keeps_processCWD,
      keeps_processCDUP, keeps_processSTOR, keeps_processLIST,
      keeps_processNLST, keeps_processPASV, keeps_processEPSV,
      keeps_processTYPE, keeps_processSIZE, keeps_processMKD,
      keeps_processRMD, keeps_processDELE, keeps_processAUTH,
      keeps_processPROT, keeps_processRETR, keeps_processREST,
      keeps_processUSER, keeps_processPASS.
Qed.

Lemma among_cons_false tok name names :
  among tok (name :: names) = false -> tok <> name /\ among tok names = false.
Proof.
  unfold among. simpl. intros Hex. apply orb_false_iff in Hex as [Hne Hrest].
  split; [by apply String.eqb_neq|done].
Qed.

(** X12. On a session that is not authenticated, every command of the
    [switch] other than [USER] and [PASS] leaves the user name empty: a
    [USER] is forgotten unless [PASS] follows at once. *)
Theorem username_forgotten (ses : Session FP) (w : World) (tok : string)
    (args : list string) :
  Authenticated (id ses) = false ->
  among tok knownCommands = true ->
  among tok ["USER"; "PASS"] = false ->
  id (fst (dispatch w (tok :: args) ses)) = BasicIdentity.New "" false.
Proof.
  intros Hauth Hknown Huser. rewrite dispatch_cases.
  assert (Hcheck : id (checkState tok ses) = BasicIdentity.New "" false).
  { unfold checkState. rewrite Huser, Hauth. simpl.
    destruct ses as [c ce [u a] p l af fp e r k]. simpl in *. subst a.
    by destruct (String.eqb tok "RETR"). }
  unfold verdictOf. rewrite Hknown. simpl.
  destruct (_ && _); [exact Hcheck|]. destruct (_ && _); [exact Hcheck|].
  apply among_cons_false in Huser as [Hu Huser].
  apply among_cons_false in Huser as [Hp _].
  apply (keeps_handlerOf_but (fun s => id s = BasicIdentity.New "" false));
    [by split| | | |exact Hcheck]; try done.
  intros [?|?]; done.
Qed.

(** [processRETR] clears the offset before anything else. *)
Lemma processRETR_offset toks (s : Session FP) :
  lastREST (fst (processRETR toks s)) = 0%Z.
Proof.
  unfold processRETR.
  match goal with
  | |- context [bind (gets lastREST) ?k] => set (K := k)
  end.
  change (bind (gets lastREST) K s) with (K (lastREST s) s).
  subst K. cbn beta.
  match goal with
  | |- context [bind (modify (setLastREST 0)) ?k] => set (K := k)
  end.
  change (bind (modify (setLastREST 0)) K s) with (K tt (setLastREST 0 s)).
  subst K. cbn beta.
  assert (HI : stable (fun st : Session FP => lastREST st = 0%Z))
    by (by split).
  match goal with
  | |- lastREST (fst (?mm ?ss)) = _ =>
      assert (Hm : keeps FP (fun st => lastREST st = 0%Z) mm)
        by (repeat keeps_step)
  end.
  by apply Hm.
Qed.

(** X13. Every command of the [switch] other than [REST] and [RETR]
    leaves the pending offset at 0, and so does a [RETR] whose handler
    runs; a [RETR] that is refused leaves the offset as it is. *)
Theorem offset_cleared (ses : Session FP) (w : World) (tok : string)
    (args : list string) :
  among tok knownCommands = true ->
  tok <> "REST" ->
  (tok <> "RETR" \/ verdictOf tok ses = Run ->
   lastREST (fst (dispatch w (tok :: args) ses)) = 0%Z) /\
  (tok = "RETR" -> verdictOf tok ses <> Run ->
   lastREST (fst (dispatch w (tok :: args) ses)) = lastREST ses).
Proof.
  intros Hknown Hrest. rewrite dispatch_cases. split.
  - intros Hcase.
    assert (Hkeep : keeps FP (fun s => lastREST s = 0%Z)
                      (handlerOf w tok (tok :: args))).
    { apply keeps_handlerOf_but; [by split|done..]. }
    destruct (String.eqb_spec tok "RETR") as [->|Hne].
    + destruct Hcase as [?|Hrun]; [done|]. rewrite Hrun.
      change (handlerOf w "RETR") with (processRETR (FP:=FP)).
      apply processRETR_offset.
    + assert (Hcheck : lastREST (checkState tok ses) = 0%Z).
      { unfold checkState. apply String.eqb_neq in Hne. by rewrite Hne. }
      destruct (verdictOf tok ses) eqn:Ev; try exact Hcheck.
      * unfold verdictOf in Ev. rewrite Hknown in Ev. simpl in Ev.
        by repeat destruct (_ && _).
      * by apply Hkeep.
  - intros -> Hv.
    assert (Hcheck : lastREST (checkState "RETR" ses) = lastREST ses).
    { unfold checkState. simpl.
      by destruct (Authenticated (id ses)). }
    destruct (verdictOf "RETR" ses) eqn:Ev; try exact Hcheck; [|done].
    unfold verdictOf in Ev. vm_compute in Ev.
    by repeat match type of Ev with
              | context [match ?x with _ => _ end] => destruct x
              end.
Qed.

End ResetFacts.

Section ResetRuns.
Import BasicIdentity FS SecurableConn Session SessionSpec Samples.

Lemma username_forgotten_witness :
  Username (id (after [["USER"; "bob"]] fresh)) = "bob" /\
  id (fst (dispatch quietWorld ["NOOP"] (after [["USER"; "bob"]] fresh))) =
    BasicIdentity.New "" false.
Proof.
  split; [reflexivity|].
  apply (username_forgotten (after [["USER"; "bob"]] fresh) quietWorld "NOOP" []);
    reflexivity.
Defined.

Lemma offset_cleared_witness :
  lastREST (fst (dispatch quietWorld ["EPSV"] (setLastREST 7 ready))) = 0%Z /\
  lastREST (fst (dispatch quietWorld ["RETR"; "/hello.txt"]
                   (setLastREST 7 loggedIn))) = 7%Z.
Proof.
  split.
  - apply (offset_cleared (setLastREST 7 ready) quietWorld "EPSV" []);
      [reflexivity|discriminate|left; discriminate].
  - apply (offset_cleared (setLastREST 7 loggedIn) quietWorld "RETR"
             ["/hello.txt"]); [reflexivity|discriminate|reflexivity|].
    vm_compute. discriminate.
Defined.

End ResetRuns.

(** ** Transfers *)

(** Run a handler through every outcome of the calls it makes. *)
Ltac crunch :=
  unfold TransferSpec.oneShot, Session.bind, Session.gets, Session.modify,
    Session.provider, Session.index, Session.cleared, Session.ret,
    Session.abortWith, Session.sendStatement, Session.Sink, Session.modify;
  repeat (case_match; simplify_eq/=);
  unfold Session.abortWith, Session.modify in *; simplify_eq/=;
  first [by left | by right; eauto 10].

Section TransferFacts.
Import BasicIdentity FS SecurableConn Session SessionSpec TransferSpec.
Context {FP : Type} `{FileProvider FP} `{GoLib}.

Lemma oneShot_processRETR toks (s : Session FP) :
  oneShot s (processRETR toks s).
Proof. unfold processRETR. crunch. Qed.

Lemma oneShot_processSTOR toks (s : Session FP) :
  oneShot s (processSTOR toks s).
Proof. unfold processSTOR. crunch. Qed.

Lemma oneShot_processLIST toks (s : Session FP) :
  oneShot s (processLIST toks s).
Proof. unfold processLIST. crunch. Qed.

Lemma oneShot_processNLST toks (s : Session FP) :
  oneShot s (processNLST toks s).
Proof. unfold processNLST. crunch. Qed.

Lemma among_true tok names : among tok names = true -> In tok names.
Proof.
  unfold among. intros Hex. apply existsb_exists in Hex as (name & Hin & Heq).
  by apply String.eqb_eq in Heq as <-.
Qed.

Lemma checkState_frame tok (s : Session FP) :
  sunk (checkState tok s) = sunk s /\
  lastDataChanneler (checkState tok s) = lastDataChanneler s /\
  conn (checkState tok s) = conn s /\
  Authenticated (id (checkState tok s)) = Authenticated (id s).
Proof.
  unfold checkState.
  destruct (among tok ["USER"; "PASS"] || Authenticated (id s)) eqn:E,
    (String.eqb tok "RETR"); simpl; repeat split; try done.
Qed.

Lemma verdict_Run_authenticated tok (s : Session FP) :
  among tok authCommands = true -> verdictOf tok s = Run ->
  Authenticated (id s) = true.
Proof.
  unfold verdictOf. intros ->. destruct (negb _); [done|].
  destruct (Authenticated (id s)); [done|]. simpl. done.
Qed.



End TransferFacts.

Section TransferRuns.
Import BasicIdentity FS SecurableConn Session SessionSpec TransferSpec Samples.



End TransferRuns.

(** ** Passive mode *)

Section PassiveFacts.
Import BasicIdentity FS SecurableConn Session SessionSpec PassiveSpec.
Import PortAssigner PoolSpec.
Context {FP : Type} `{FileProvider FP} `{GoLib}.

Lemma append_assoc (x y z : string) : (x +:+ y) +:+ z = x +:+ (y +:+ z).
Proof.
  induction x as [|a x IH]; [done|].
  change (String a ((x +:+ y) +:+ z) = String a (x +:+ (y +:+ z))).
  by rewrite IH.
Qed.

Lemma length_append_byte (x : string) c :
  String.length (x +:+ String c "") = S (String.length x).
Proof.
  induction x as [|a x IH]; [done|].
  change (String a x +:+ String c "") with (String a (x +:+ String c "")).
  simpl. by rewrite IH.
Qed.

(** The last two bytes of a statement that ends with [c]. *)
Lemma substring_last2 (x : string) (c : ascii) :
  x <> "" ->
  exists d,
    substring (String.length (x +:+ String c "") - 2) 2 (x +:+ String c "") =
    String d (String c "").
Proof.
  induction x as [|a x IH]; [done|]. intros _.
  destruct x as [|b x].
  - by exists a.
  - destruct IH as [d Hd]; [done|]. exists d.
    rewrite length_append_byte in *.
    change (String a (String b x) +:+ String c "")
      with (String a (String b x +:+ String c "")).
    simpl String.length in *. cbn [Nat.sub] in *.
    rewrite Nat.sub_0_r in Hd. exact Hd.
Qed.

(** [sendStatement] on a statement that does not end with a line feed
    writes the statement and CR LF. *)
Lemma sendStatement_plain (x : string) (c : ascii) (s : Session FP) :
  x <> "" -> c <> ascii_of_nat 10 ->
  sendStatement (x +:+ String c "") s =
  (wrote ((x +:+ String c "") +:+ CRLF) s, Done tt).
Proof.
  intros Hx Hc. unfold sendStatement.
  destruct (substring_last2 x c Hx) as [d Hd]. rewrite Hd.
  rewrite length_append_byte.
  destruct x as [|a x]; [done|]. simpl String.length.
  change (S (S (String.length x)) <? 2)%nat with false. cbv iota.
  destruct (String.eqb_spec (String d (String c "")) CRLF) as [Heq|_];
    [|reflexivity].
  injection Heq as _ Heq. by destruct Hc.
Qed.

(** X16. [EPSV] and [PASV] on an authenticated session without data
    channel, when the pool assigns [p] and the listener can be bound:
    the session holds a channel on [p] whose listener is bound before
    the reply is written, and the reply advertises [p], as
    [(|||p|)] and as the last two numbers after the address. *)
Theorem passive_mode_opens_channel (ses : Session FP) (w : World)
    (args : list string) pa' p :
  Authenticated (id ses) = true ->
  lastDataChanneler ses = None ->
  AssignPort (probeListen w) (pa ses) = Done (pa', Val p) ->
  openListen w p = None ->
  dispatch w ("EPSV" :: args) ses =
    (wrote ("229 Entering Extended Passive Mode (|||" +:+ itoa p +:+ "|)"
            +:+ CRLF)
       (setLastDataChanneler (Some (openedChannel ses p))
          (setPa pa' (setLastREST 0 ses))),
     Done false) /\
  (forall ip, getLocalIP w = Val ip ->
   dispatch w ("PASV" :: args) ses =
    (wrote ("227 Entering Passive Mode (" +:+ dotsToCommas ip +:+ ","
            +:+ DataChannel.ToPASVStringPort (openedChannel ses p) +:+ ")"
            +:+ CRLF)
       (setLastDataChanneler (Some (openedChannel ses p))
          (setPa pa' (setLastREST 0 ses))),
     Done false)).
Proof.
  intros Hauth Hnone Hassign Hopen.
  assert (Hc : forall tok, checkState tok ses =
                 if String.eqb tok "RETR" then ses else setLastREST 0 ses).
  { intros tok. unfold checkState. rewrite Hauth, orb_true_r. reflexivity. }
  assert (Hnew : retrievePassivePort w (setLastREST 0 ses) =
            (setLastDataChanneler (Some (madeChannel ses p))
               (setPa pa' (setLastREST 0 ses)), Done None)).
  { unfold retrievePassivePort, bind, gets.
    change (lastDataChanneler (setLastREST 0 ses)) with (lastDataChanneler ses).
    rewrite Hnone. unfold ret, newChannel, DataChannel.New.
    change (pa (setLastREST 0 ses)) with (pa ses).
    rewrite Hassign. reflexivity. }
  assert (Hopened : openLast w (setLastDataChanneler (Some (madeChannel ses p))
                                  (setPa pa' (setLastREST 0 ses))) =
            (setLastDataChanneler (Some (openedChannel ses p))
               (setPa pa' (setLastREST 0 ses)), Done None)).
  { unfold openLast, bind, gets, DataChannel.Open.
    cbn [lastDataChanneler setLastDataChanneler madeChannel DataChannel.port].
    rewrite Hopen. reflexivity. }
  split.
  - rewrite dispatch_cases.
    assert (Hv : verdictOf "EPSV" ses = Run).
    { unfold verdictOf. rewrite Hauth. reflexivity. }
    rewrite Hv, Hc. change (handlerOf w "EPSV") with (processEPSV (FP:=FP) w).
    change (String.eqb "EPSV" "RETR") with false. cbv iota. unfold processEPSV.
    unfold bind at 1. rewrite Hnew.
    unfold bind at 1. rewrite Hopened.
    unfold bind at 1, gets at 1. cbn [lastDataChanneler setLastDataChanneler fst snd].
    unfold bind at 1.
    change (DataChannel.Port (openedChannel ses p)) with p.
    replace ("229 Entering Extended Passive Mode (|||" +:+ itoa p +:+ "|)")
      with (("229 Entering Extended Passive Mode (|||" +:+ itoa p +:+ "|")
            +:+ String ")"%char "")
      by (by rewrite !append_assoc).
    rewrite sendStatement_plain; [|done|by vm_compute].
    unfold ret. by rewrite !append_assoc.
  - intros ip Hip. rewrite dispatch_cases.
    assert (Hv : verdictOf "PASV" ses = Run).
    { unfold verdictOf. rewrite Hauth. reflexivity. }
    rewrite Hv, Hc. change (handlerOf w "PASV") with (processPASV (FP:=FP) w).
    change (String.eqb "PASV" "RETR") with false. cbv iota. unfold processPASV. rewrite Hip.
    unfold bind at 1. rewrite Hnew.
    unfold bind at 1. rewrite Hopened.
    unfold bind at 1, gets at 1. cbn [lastDataChanneler setLastDataChanneler fst snd].
    unfold bind at 1.
    change (itoa 227) with "227".
    replace ("227" +:+ " Entering Passive Mode (" +:+ dotsToCommas ip +:+ ","
             +:+ DataChannel.ToPASVStringPort (openedChannel ses p) +:+ ")")
      with (("227 Entering Passive Mode (" +:+ dotsToCommas ip +:+ ","
             +:+ DataChannel.ToPASVStringPort (openedChannel ses p))
            +:+ String ")"%char "")
      by (by rewrite !append_assoc).
    rewrite sendStatement_plain; [|done|by vm_compute].
    unfold ret. by rewrite !append_assoc.
Qed.

End PassiveFacts.

Section PassiveRuns.
Import BasicIdentity FS SecurableConn Session SessionSpec PassiveSpec Samples.

Lemma passive_mode_opens_channel_witness :
  bufw (conn (fst (dispatch quietWorld ["EPSV"] loggedIn))) =
    bufw (conn loggedIn)
    ++ ["229 Entering Extended Passive Mode (|||10000|)" +:+ CRLF] /\
  bufw (conn (fst (dispatch quietWorld ["PASV"] loggedIn))) =
    bufw (conn loggedIn)
    ++ ["227 Entering Passive Mode (192,168,1,10,39,16)" +:+ CRLF].
Proof.
  destruct (passive_mode_opens_channel loggedIn quietWorld []
              (PortAssigner.mkPa 10000 10002 [true; false] 1 false) 10000%Z
              eq_refl eq_refl eq_refl eq_refl) as [Hepsv Hpasv].
  split.
  - rewrite Hepsv. reflexivity.
  - rewrite (Hpasv "192.168.1.10" eq_refl). reflexivity.
Defined.

End PassiveRuns.

Section PassiveFailures.
Import BasicIdentity FS SecurableConn Session SessionSpec PassiveSpec.
Import TransferSpec PortAssigner PoolSpec.
Context {FP : Type} `{FileProvider FP} `{GoLib}.

Lemma checkState_authenticated tok (ses : Session FP) :
  Authenticated (id ses) = true ->
  checkState tok ses =
  if String.eqb tok "RETR" then ses else setLastREST 0 ses.
Proof.
  intros Hauth. unfold checkState. rewrite Hauth, orb_true_r. reflexivity.
Qed.

(** X17. [EPSV] and [PASV] on an authenticated session without data
    channel, when every port of the pool is in use or cannot be bound:
    the reply is [550 Could not allocate passive port: no more ports
    available], the session stays without channel and the pool is
    untouched. *)
Theorem passive_mode_exhausted (ses : Session FP) (w : World)
    (args : list string) :
  Authenticated (id ses) = true ->
  lastDataChanneler ses = None ->
  handlerClosed (pa ses) = false ->
  (forall j b, cAssigned (pa ses) !! j = Some b ->
     b = true \/
     probeListen w (Z.of_nat j + minPASVPort (pa ses))%Z <> None) ->
  dispatch w ("EPSV" :: args) ses =
    (wrote ("550 Could not allocate passive port: no more ports available"
            +:+ CRLF) (setLastREST 0 ses), Done false) /\
  (forall ip, getLocalIP w = Val ip ->
   dispatch w ("PASV" :: args) ses =
    (wrote ("550 Could not allocate passive port: no more ports available"
            +:+ CRLF) (setLastREST 0 ses), Done false)).
Proof.
  intros Hauth Hnone Hopen Hfull.
  assert (Hff : firstFree (probeListen w) (minPASVPort (pa ses)) 0
                  (cAssigned (pa ses)) = None)
    by (apply firstFree_None; exact Hfull).
  assert (Hnew : retrievePassivePort w (setLastREST 0 ses) =
            (setLastREST 0 ses, Done (Some "no more ports available"))).
  { unfold retrievePassivePort, bind, gets.
    change (lastDataChanneler (setLastREST 0 ses)) with (lastDataChanneler ses).
    rewrite Hnone. unfold ret, newChannel, DataChannel.New, AssignPort.
    change (pa (setLastREST 0 ses)) with (pa ses).
    rewrite Hopen, Hff.
    destruct ses as [c ce i pl l af fp e r k]. simpl in Hnone. by subst l. }
  assert (Hv : forall tok, In tok ["EPSV"; "PASV"] -> verdictOf tok ses = Run).
  { intros tok [<-|[<-|[]]]; unfold verdictOf; rewrite Hauth; reflexivity. }
  split.
  - rewrite dispatch_cases, Hv, checkState_authenticated by (done || by left).
    change (handlerOf w "EPSV") with (processEPSV (FP:=FP) w).
    change (String.eqb "EPSV" "RETR") with false. cbv iota.
    unfold processEPSV. unfold bind at 1. rewrite Hnew. reflexivity.
  - intros ip Hip.
    rewrite dispatch_cases, Hv, checkState_authenticated
      by (done || by right; left).
    change (handlerOf w "PASV") with (processPASV (FP:=FP) w).
    change (String.eqb "PASV" "RETR") with false. cbv iota.
    unfold processPASV. rewrite Hip. unfold bind at 1. rewrite Hnew.
    reflexivity.
Qed.

Lemma firstFree_single netListen minPort (slots : list bool) (i : nat) :
  (forall j b, slots !! j = Some b -> b = true) ->
  (i < length slots)%nat ->
  netListen (Z.of_nat i + minPort)%Z = None ->
  firstFree netListen minPort 0 (<[i := false]> slots) = Some i.
Proof.
  intros Hall Hi Hprobe.
  destruct (firstFree netListen minPort 0 (<[i := false]> slots)) as [i'|]
    eqn:Eff.
  - apply firstFree_Some in Eff as (j & -> & Hj & _). simpl. f_equal.
    destruct (decide (j = i)) as [->|Hne]; [done|].
    rewrite list_lookup_insert_ne in Hj by done.
    by apply Hall in Hj.
  - exfalso.
    pose proof (proj1 (firstFree_None _ _ _ _) Eff i false) as Hnone.
    destruct Hnone as [?|Hne]; [by apply list_lookup_insert_eq|done|].
    by apply Hne.
Qed.



End PassiveFailures.

Section PassiveFailureRuns.
Import SecurableConn Session SessionSpec PassiveSpec PortAssigner Samples.
Import MemFS AsciiLib.

Lemma passive_mode_exhausted_witness :
  let busy := mkWorld (Val "192.168.1.10")
                (fun _ => Some "bind: address already in use")
                (fun _ => None) in
  bufw (conn (fst (dispatch busy ["EPSV"] loggedIn))) =
    bufw (conn loggedIn)
    ++ ["550 Could not allocate passive port: no more ports available"
        +:+ CRLF] /\
  pa (fst (dispatch busy ["PASV"] loggedIn)) = smallPool.
Proof.
  intros busy.
  assert (Hfull : forall (j : nat) (b : bool),
            cAssigned (pa loggedIn) !! j = Some b ->
            b = true \/
            probeListen busy (Z.of_nat j + minPASVPort (pa loggedIn))%Z
              <> None)
    by (intros j b _; right; discriminate).
  destruct (passive_mode_exhausted loggedIn busy [] eq_refl eq_refl eq_refl
              Hfull) as [Hepsv Hpasv].
  split.
  - rewrite Hepsv. reflexivity.
  - rewrite (Hpasv "192.168.1.10" eq_refl). reflexivity.
Defined.



End PassiveFailureRuns.

(** One handler and a property of the encryption: all the cases of the
    handler. *)
Ltac tls_crunch :=
  let s := fresh "s" in
  let Hs := fresh "Hs" in
  intros s Hs;
  destruct s as [c ce i pl l af fp e r k];
  unfold TlsSpec.encSync, TlsSpec.encNeedsTLS in *;
  unfold Session.retrievePassivePort, Session.openLast, Session.newChannel,
    Session.closeChannel, Session.switchToTLS, Session.cleared,
    Session.Sink, Session.sendStatement, Session.index, Session.provider,
    Session.bind, Session.gets, Session.modify, Session.ret,
    Session.abortWith, DataChannel.New, DataChannel.Open, DataChannel.Close,
    SecurableConn.SwitchToTLS, DataChannel.Encrypted,
    SecurableConn.IsSecure in *;
  simpl in *;
  repeat (case_match; simplify_eq/=);
  unfold Session.abortWith, Session.modify, Session.ret in *; simplify_eq/=;
  try done;
  try match goal with
      | Hb : negb ?b = false |- _ -> ?b = true => by destruct b
      end.

Section TlsFacts.
Import BasicIdentity FS SecurableConn Session SessionSpec TlsSpec.
Context {FP : Type} `{FileProvider FP} `{GoLib}.

Lemma tls_processUSER toks : keepsTls FP (processUSER toks).
Proof. split; unfold keeps, processUSER; tls_crunch. Qed.

Lemma tls_processPASS toks : keepsTls FP (processPASS toks).
Proof. split; unfold keeps, processPASS; tls_crunch. Qed.

Lemma tls_processSYST toks : keepsTls FP (processSYST toks).
Proof. split; unfold keeps, processSYST; tls_crunch. Qed.

Lemma tls_processQUIT toks : keepsTls FP (processQUIT toks).
Proof. split; unfold keeps, processQUIT; tls_crunch. Qed.

Lemma tls_processNOOP toks : keepsTls FP (processNOOP toks).
Proof. split; unfold keeps, processNOOP; tls_crunch. Qed.

Lemma tls_processFEAT toks : keepsTls FP (processFEAT toks).
Proof. split; unfold keeps, processFEAT; tls_crunch. Qed.

Lemma tls_processPWD toks : keepsTls FP (processPWD toks).
Proof. split; unfold keeps, processPWD; tls_crunch. Qed.

Lemma tls_processCWD toks : keepsTls FP (processCWD toks).
Proof. split; unfold keeps, processCWD; tls_crunch. Qed.

Lemma tls_processRETR toks : keepsTls FP (processRETR toks).
Proof. split; unfold keeps, processRETR; tls_crunch. Qed.

Lemma tls_processSTOR toks : keepsTls FP (processSTOR toks).
Proof. split; unfold keeps, processSTOR; tls_crunch. Qed.

Lemma tls_processLIST toks : keepsTls FP (processLIST toks).
Proof. split; unfold keeps, processLIST; tls_crunch. Qed.

Lemma tls_processNLST toks : keepsTls FP (processNLST toks).
Proof. split; unfold keeps, processNLST; tls_crunch. Qed.

Lemma tls_processPASV w toks : keepsTls FP (processPASV w toks).
Proof. split; unfold keeps, processPASV; tls_crunch. Qed.

Lemma tls_processEPSV w toks : keepsTls FP (processEPSV w toks).
Proof. split; unfold keeps, processEPSV; tls_crunch. Qed.

Lemma tls_processTYPE toks : keepsTls FP (processTYPE toks).
Proof. split; unfold keeps, processTYPE; tls_crunch. Qed.

Lemma tls_processSIZE toks : keepsTls FP (processSIZE toks).
Proof. split; unfold keeps, processSIZE; tls_crunch. Qed.

Lemma tls_processMKD toks : keepsTls FP (processMKD toks).
Proof. split; unfold keeps, processMKD; tls_crunch. Qed.

Lemma tls_processRMD toks : keepsTls FP (processRMD toks).
Proof. split; unfold keeps, processRMD; tls_crunch. Qed.

Lemma tls_processDELE toks : keepsTls FP (processDELE toks).
Proof. split; unfold keeps, processDELE; tls_crunch. Qed.

Lemma tls_processREST toks : keepsTls FP (processREST toks).
Proof. split; unfold keeps, processREST; tls_crunch. Qed.

Lemma tls_processAUTH toks : keepsTls FP (processAUTH toks).
Proof. split; unfold keeps, processAUTH; tls_crunch. Qed.

Lemma tls_processPROT toks : keepsTls FP (processPROT toks).
Proof. split; unfold keeps, processPROT; tls_crunch. Qed.

Lemma tls_processCDUP toks : keepsTls FP (processCDUP toks).
Proof. unfold processCDUP. apply tls_processCWD. Qed.

Lemma tls_handlerOf w tok toks : keepsTls FP (handlerOf w tok toks).
Proof.
  unfold handlerOf.
  repeat case_match;
    eauto using tls_processUSER, tls_processPASS, tls_processSYST,
      tls_processQUIT, tls_processNOOP, tls_processFEAT,
      tls_processPWD, tls_processCWD, tls_processCDUP,
      tls_processRETR, tls_processSTOR, tls_processLIST,
      tls_processNLST, tls_processPASV, tls_processEPSV,
      tls_processTYPE, tls_processSIZE, tls_processMKD,
      tls_processRMD, tls_processDELE, tls_processREST,
      tls_processAUTH, tls_processPROT.
Qed.

Lemma tls_checkState tok (s : Session FP) :
  (encSync s -> encSync (checkState tok s)) /\
  (encNeedsTLS s -> encNeedsTLS (checkState tok s)).
Proof.
  unfold checkState, encSync, encNeedsTLS.
  destruct (among tok ["USER"; "PASS"] || Authenticated (id s)),
    (String.eqb tok "RETR"); simpl; split; exact (fun Hs => Hs).
Qed.

Lemma tls_refuse statement (s : Session FP) :
  (encSync s -> encSync (fst (refuse statement s))) /\
  (encNeedsTLS s -> encNeedsTLS (fst (refuse statement s))).
Proof. split; exact (fun Hs => Hs). Qed.

Lemma tls_dispatch w toks : keepsTls FP (dispatch w toks).
Proof.
  destruct toks as [|tok args].
  - split; unfold keeps, dispatch; tls_crunch.
  - destruct (tls_handlerOf w tok (tok :: args)) as [Hsync Htls].
    split; intros s Hs; rewrite dispatch_cases;
      destruct (verdictOf tok s).
    + by apply tls_refuse.
    + by apply tls_refuse, tls_checkState.
    + by apply tls_refuse, tls_checkState.
    + by apply Hsync, tls_checkState.
    + by apply tls_refuse.
    + by apply tls_refuse, tls_checkState.
    + by apply tls_refuse, tls_checkState.
    + by apply Htls, tls_checkState.
Qed.

Lemma tls_commandLoop input : keepsTls FP (commandLoop input).
Proof.
  induction input as [|[w toks] rest [IHsync IHtls]]; simpl.
  - split; apply keeps_ret.
  - destruct (tls_dispatch w toks) as [Hsync Htls].
    split; (apply keeps_bind; [assumption|]);
      intros [|]; (apply keeps_ret || assumption).
Qed.

Lemma tls_Handle input : keepsTls FP (Handle input).
Proof.
  destruct (tls_commandLoop input) as [Hsync Htls].
  split; unfold Handle; (apply keeps_bind; [|intros _; assumption]);
    unfold keeps; tls_crunch.
Qed.

(** X20. The encryption flag of the data channel of a session is the
    flag of the session, whatever the commands: [PROT] sets both, and
    every new channel is made with the flag of the session. *)
Theorem data_channel_flag_in_sync (ses : Session FP)
    (input : list (World * list string)) :
  encSync ses -> encSync (fst (Handle input ses)).
Proof. apply tls_Handle. Qed.

(** X21. The data channels of a session are encrypted only when its
    control connection is: whatever the commands, the flag of the
    session is set only once [AUTH] has switched the control connection
    to TLS. *)
Theorem data_encryption_needs_TLS (ses : Session FP)
    (input : list (World * list string)) :
  encNeedsTLS ses -> encNeedsTLS (fst (Handle input ses)).
Proof. apply tls_Handle. Qed.

End TlsFacts.

Section TlsRuns.
Import SecurableConn Session SessionSpec TlsSpec PortAssigner Samples.
Import MemFS AsciiLib.

Lemma data_channel_flag_in_sync_witness :
  let secured := Session.New (mkConn false true true []) true smallPool
                   (fun _ pw => String.eqb pw "secret") store in
  let input := map (fun c => (quietWorld, c))
                 [["AUTH"; "TLS"]; ["USER"; "bob"]; ["PASS"; "secret"];
                  ["EPSV"]; ["PROT"; "p"]] in
  encSync secured /\ encSync (fst (Handle input secured)) /\
  dataChannelEncryption (fst (Handle input secured)) = true.
Proof.
  intros secured input.
  assert (Hstart : encSync secured) by exact I.
  split; [exact Hstart|]. split.
  - exact (data_channel_flag_in_sync secured input Hstart).
  - reflexivity.
Defined.

Lemma data_encryption_needs_TLS_witness :
  let input := map (fun c => (quietWorld, c))
                 [["USER"; "bob"]; ["PASS"; "secret"]; ["PROT"; "P"]] in
  encNeedsTLS fresh /\ encNeedsTLS (fst (Handle input fresh)) /\
  dataChannelEncryption (fst (Handle input fresh)) = false.
Proof.
  intros input.
  assert (Hstart : encNeedsTLS fresh) by (intros Henc; discriminate Henc).
  split; [exact Hstart|]. split.
  - exact (data_encryption_needs_TLS fresh input Hstart).
  - reflexivity.
Defined.

End TlsRuns.

Section ArgumentFacts.
Import BasicIdentity FS SecurableConn Session SessionSpec PassiveSpec.
Import PortAssigner PoolSpec.
Context {FP : Type} `{FileProvider FP} `{GoLib}.

(** X22. [USER], [PASS], [TYPE], [CWD], [SIZE], [RETR] and [STOR]
    received without argument, on any session: the command returns, the
    reply is an error (of class 4 or 5), and neither the provider, nor
    the data channel, nor the login state is touched. *)
Theorem missing_argument_refused (ses : Session FP) (w : World)
    (tok : string) :
  In tok ["USER"; "PASS"; "TYPE"; "CWD"; "SIZE"; "RETR"; "STOR"] ->
  let r := dispatch w [tok] ses in
  snd r = Done false /\
  fileProvider (fst r) = fileProvider ses /\
  lastDataChanneler (fst r) = lastDataChanneler ses /\
  sunk (fst r) = sunk ses /\
  Authenticated (id (fst r)) = Authenticated (id ses) /\
  exists class reply,
    bufw (conn (fst r)) = bufw (conn ses) ++ [String class reply] /\
    (class = "4"%char \/ class = "5"%char).
Proof.
  intros Hin.
  destruct ses as [[sec crt pln buf] ce [u a] p l af fp e r k].
  repeat (destruct Hin as [<-|Hin];
          [destruct a, l as [[dce [|dp|dp] dl dcn ds den df dk]|];
             vm_compute; do 5 (split; [reflexivity|]);
             do 2 eexists; (split; [reflexivity|]);
             first [by left | by right]|]).
  destruct Hin.
Qed.

(** X23. The handlers that read [tokens[1]] without a check that can
    fail: [REST] without argument (the check is [len(tokens) < 1]), and
    [RMD] and [DELE] without argument when the provider returns an error,
    end in a run-time panic, without a reply. *)
Theorem missing_argument_panics (ses : Session FP) (w : World) :
  Authenticated (id ses) = true ->
  (noChannel ses = false ->
   dispatch w ["REST"] ses = (setLastREST 0 ses, Aborted Panic)) /\
  (forall fp e, RemoveDirectory "" (fileProvider ses) = (fp, Some e) ->
   dispatch w ["RMD"] ses =
     (setFileProvider fp (setLastREST 0 ses), Aborted Panic)) /\
  (forall fp e, Get "" (fileProvider ses) = (fp, Fail e) ->
   dispatch w ["DELE"] ses =
     (setFileProvider fp (setLastREST 0 ses), Aborted Panic)).
Proof.
  intros Hauth. repeat split.
  - intros Hchan. rewrite dispatch_cases.
    assert (Hv : verdictOf "REST" ses = Run).
    { unfold verdictOf. rewrite Hauth, Hchan. reflexivity. }
    rewrite Hv, checkState_authenticated by done. reflexivity.
  - intros fp e Hrm. rewrite dispatch_cases.
    assert (Hv : verdictOf "RMD" ses = Run).
    { unfold verdictOf. rewrite Hauth. reflexivity. }
    rewrite Hv, checkState_authenticated by done.
    change (handlerOf w "RMD") with (processRMD (FP:=FP)).
    change (String.eqb "RMD" "RETR") with false. cbv iota.
    unfold processRMD, bind, provider. simpl. rewrite Hrm. reflexivity.
  - intros fp e Hget. rewrite dispatch_cases.
    assert (Hv : verdictOf "DELE" ses = Run).
    { unfold verdictOf. rewrite Hauth. reflexivity. }
    rewrite Hv, checkState_authenticated by done.
    change (handlerOf w "DELE") with (processDELE (FP:=FP)).
    change (String.eqb "DELE" "RETR") with false. cbv iota.
    unfold processDELE, bind, provider. simpl. rewrite Hget. reflexivity.
Qed.



End ArgumentFacts.

Section ArgumentRuns.
Import SecurableConn Session SessionSpec PassiveSpec PortAssigner Samples.
Import MemFS AsciiLib.

Lemma missing_argument_refused_witness :
  snd (dispatch quietWorld ["RETR"] ready) = Done false /\
  fileProvider (fst (dispatch quietWorld ["RETR"] ready)) = store.
Proof.
  assert (Hin : In "RETR"
                  ["USER"; "PASS"; "TYPE"; "CWD"; "SIZE"; "RETR"; "STOR"])
    by (do 5 right; left; reflexivity).
  destruct (missing_argument_refused ready quietWorld "RETR" Hin)
    as (Hret & Hfp & _).
  split; [exact Hret|]. rewrite Hfp. reflexivity.
Defined.

Lemma missing_argument_panics_witness :
  snd (dispatch quietWorld ["REST"] ready) = Aborted Panic.
Proof.
  rewrite (proj1 (missing_argument_panics ready quietWorld eq_refl) eq_refl).
  reflexivity.
Defined.



End ArgumentRuns.

(** ** The directories of the providers *)

Section DirectoryFacts.
Import GoStrings Path.

Lemma Split_append a sep b :
  Split (a +:+ String sep b) sep = Split a sep ++ Split b sep.
Proof.
  induction a as [|c r IH].
  - change ("" +:+ String sep b) with (String sep b). simpl.
    by rewrite Ascii.eqb_refl.
  - change (String c r +:+ String sep b) with (String c (r +:+ String sep b)).
    simpl. rewrite IH. destruct (Ascii.eqb c sep); [done|].
    pose proof (Split_not_nil r sep) as Hne.
    by destruct (Split r sep).
Qed.

Lemma Join_Split s sep : Join (Split s sep) (String sep "") = s.
Proof.
  induction s as [|c r IH]; [done|]. simpl.
  pose proof (Split_not_nil r sep) as Hne.
  destruct (Ascii.eqb_spec c sep) as [->|_].
  - destruct (Split r sep) as [|p ps] eqn:E; [done|].
    change (Join ("" :: p :: ps) (String sep ""))
      with (String sep (Join (p :: ps) (String sep ""))).
    by rewrite IH.
  - destruct (Split r sep) as [|p ps] eqn:E; [done|].
    destruct ps as [|q ps].
    + simpl in *. by rewrite IH.
    + change (Join (String c p :: q :: ps) (String sep ""))
        with (String c (Join (p :: q :: ps) (String sep ""))).
      by rewrite IH.
Qed.

Lemma nonEmpty_app xs ys : nonEmpty (xs ++ ys) = nonEmpty xs ++ nonEmpty ys.
Proof.
  induction xs as [|x xs IH]; simpl; [done|].
  destruct (String.eqb x ""); by rewrite IH.
Qed.

Lemma segments_append a b :
  segments (a +:+ String slash b) = segments a ++ segments b.
Proof. unfold segments. by rewrite Split_append, nonEmpty_app. Qed.

Lemma segments_relative cur p :
  segments ("/" +:+ cur +:+ "/" +:+ p) = segments cur ++ segments p.
Proof.
  change ("/" +:+ cur +:+ "/" +:+ p) with ("" +:+ String slash (cur +:+ String slash p)).
  by rewrite !segments_append.
Qed.

Lemma segments_segment c : segment c -> segments c = [c].
Proof. intros Hc. apply (segments_Join [c]). by constructor. Qed.

Lemma last_snoc (xs : list string) x : last (xs ++ [x]) = Some x.
Proof. induction xs as [|y [|z xs] IH]; done. Qed.

End DirectoryFacts.

Section AzureFacts.
Import GoStrings Path AzureFS.

(** X26. [ChangeDirectory("..")], what [CDUP] calls, in the root
    stays in the root without a call to the storage; in a container it
    ends in a run-time panic: the two last items are removed from
    [[container, ..]] and [toks[0]] is read from the empty slice. *)
Theorem ChangeDirectory_dotdot_near_root (pfs : azureFS) (c : string) :
  segment c ->
  ChangeDirectory ".." (setCurrentRealDirectory "" pfs) =
    Done (setCurrentRealDirectory "" pfs, None) /\
  ChangeDirectory ".." (setCurrentRealDirectory c pfs) = Aborted Panic.
Proof.
  intros Hc. split; [reflexivity|].
  unfold ChangeDirectory. cbn [Ascii.eqb negb slash Bool.eqb].
  change (Ascii.eqb "." "/") with false. cbv iota. cbn [negb].
  cbv zeta. unfold splitAndCleanPath. fold (segments ("/" +:+
    currentRealDirectory (setCurrentRealDirectory c pfs) +:+ "/" +:+ "..")).
  rewrite segments_relative. cbn [currentRealDirectory setCurrentRealDirectory].
  rewrite (segments_segment c Hc).
  reflexivity.
Qed.

(** X27. [ChangeDirectory("..")] from a directory below a container
    goes to the parent directory, once the storage has confirmed that the
    parent exists: the container itself, or the blob whose name is the
    rest of the path. *)
Theorem ChangeDirectory_dotdot_parent (pfs : azureFS) (c : string)
    (rest : list string) (d : string) :
  Forall segment (c :: rest ++ [d]) ->
  match rest with
  | [] => ContainerExists (client pfs) c
  | _ => BlobExists (client pfs) c (Join rest "/")
  end = Val true ->
  ChangeDirectory ".."
    (setCurrentRealDirectory (Join (c :: rest ++ [d]) "/") pfs) =
  Done (setCurrentRealDirectory (Join (c :: rest) "/") pfs, None).
Proof.
  intros Hall Hexists.
  unfold ChangeDirectory. change (Ascii.eqb "." slash) with false.
  cbv iota. cbn [negb]. cbv zeta. unfold splitAndCleanPath.
  fold (segments ("/" +:+ currentRealDirectory
          (setCurrentRealDirectory (Join (c :: rest ++ [d]) "/") pfs)
        +:+ "/" +:+ "..")).
  rewrite segments_relative.
  cbn [currentRealDirectory setCurrentRealDirectory].
  rewrite (segments_Join _ Hall).
  change (segments "..") with [".."].
  replace ((c :: rest ++ [d]) ++ [".."]) with ((c :: rest) ++ [d; ".."])
    by (simpl; by rewrite <- app_assoc).
  assert (Hlast : last ((c :: rest) ++ [d; ".."]) = Some "..").
  { replace ((c :: rest) ++ [d; ".."]) with (((c :: rest) ++ [d]) ++ [".."])
      by (by rewrite <- app_assoc).
    apply last_snoc. }
  rewrite Hlast. cbn [default id from_option]. 
  change (String.eqb ".." "..") with true. cbv iota.
  rewrite !length_app. cbn [length].
  replace (S (length rest) + 2 - 2)%nat with (length (c :: rest))
    by (simpl; lia).
  rewrite take_app_length.
  destruct (Nat.eqb_spec (S (length rest) + 2) 0); [lia|].
  destruct (Nat.eqb_spec (S (length rest) + 2) 1); [lia|].
  cbn [andb]. destruct rest as [|r rest].
  - simpl. rewrite Hexists. reflexivity.
  - cbn [length Nat.eqb client setCurrentRealDirectory].
    rewrite Hexists. reflexivity.
Qed.

(** X28. [ChangeDirectory] changes the current directory only to the
    root, to a container that the storage says exists, or to a blob that
    the storage says exists; the new directory is then a list of
    non-empty segments joined by single separators. When it returns an
    error, the provider is unchanged. *)
Theorem ChangeDirectory_checked (path : string) (pfs pfs' : azureFS)
    (err : option error) :
  ChangeDirectory path pfs = Done (pfs', err) ->
  match err with
  | Some _ => pfs' = pfs
  | None =>
      client pfs' = client pfs /\
      exists toks,
        Forall segment toks /\
        currentRealDirectory pfs' = Join toks "/" /\
        match toks with
        | [] => True
        | [c] => ContainerExists (client pfs) c = Val true
        | c :: blob => BlobExists (client pfs) c (Join blob "/") = Val true
        end
  end.
Proof.
  unfold ChangeDirectory. destruct path as [|b path'].
  { intros [= <- <-]. split; [done|]. by exists []. }
  cbv zeta.
  set (toks0 := splitAndCleanPath _).
  assert (Hall0 : Forall segment toks0) by apply segments_Forall.
  destruct (length toks0 =? 0)%nat.
  { intros [= <- <-]. split; [done|]. by exists []. }
  destruct (String.eqb (default "" (last toks0)) ".." && (length toks0 =? 1)%nat).
  { intros [= <- <-]. split; [done|]. by exists []. }
  set (toks := if String.eqb (default "" (last toks0)) ".." then _ else _).
  assert (Hall : Forall segment toks).
  { subst toks. destruct (String.eqb _ _); [by apply Forall_take|done]. }
  clearbody toks. clear toks0 Hall0.
  destruct (Nat.eqb_spec (length toks) 1) as [Hone|Hmore].
  - destruct toks as [|c [|? ?]]; try discriminate. simpl.
    destruct (ContainerExists (client pfs) c) as [[|]|e] eqn:Ec;
      intros [= <- <-]; try done.
    split; [done|]. by exists [c].
  - destruct toks as [|c blob]; [done|].
    destruct (BlobExists (client pfs) c (Join blob "/")) as [[|]|e] eqn:Eb;
      intros [= <- <-]; try done.
    split; [done|]. exists (c :: blob). repeat split; try done.
    destruct blob; [done|exact Eb].
Qed.

End AzureFacts.

Section LocalFacts.
Import GoStrings Path LocalFS.

(** X29. [CurrentDirectory] hides the home directory: in the home
    directory it answers [/], and in [home/rel] it answers [/rel],
    whatever [home] and [rel]. *)
Theorem CurrentDirectory_hides_home (home rel : string) :
  CurrentDirectory (mkPhysicalFS home home) = Done "/" /\
  CurrentDirectory (mkPhysicalFS home (home +:+ "/" +:+ rel)) =
    Done ("/" +:+ rel).
Proof.
  unfold CurrentDirectory. cbn [homeRealDirectory currentRealDirectory].
  split.
  - rewrite Nat.ltb_irrefl, drop_all. reflexivity.
  - change (home +:+ "/" +:+ rel) with (home +:+ String PathSeparator rel).
    rewrite Split_append, length_app.
    destruct (Nat.ltb_spec (length (Split home PathSeparator)
                            + length (Split rel PathSeparator))
                (length (Split home PathSeparator))); [lia|].
    rewrite drop_app_length.
    change "/" with (String PathSeparator "") at 2.
    by rewrite Join_Split.
Qed.

End LocalFacts.

Section AzureRuns.
Import GoStrings Path AzureFS.

Lemma ChangeDirectory_dotdot_near_root_witness :
  ChangeDirectory ".." (mkAzureFS account "photos") = Aborted Panic.
Proof.
  assert (Hc : segment "photos") by (split; [discriminate|reflexivity]).
  exact (proj2 (ChangeDirectory_dotdot_near_root (mkAzureFS account "")
                  "photos" Hc)).
Defined.

Lemma ChangeDirectory_dotdot_parent_witness :
  ChangeDirectory ".." (mkAzureFS account "photos/2016/may") =
  Done (mkAzureFS account "photos/2016", None).
Proof.
  assert (Hall : Forall segment ("photos" :: ["2016"] ++ ["may"])).
  { repeat constructor; discriminate. }
  exact (ChangeDirectory_dotdot_parent (mkAzureFS account "") "photos"
           ["2016"] "may" Hall eq_refl).
Defined.

Lemma ChangeDirectory_checked_witness :
  ChangeDirectory "2016" (mkAzureFS account "photos") =
    Done (mkAzureFS account "photos/2016", None) /\
  BlobExists account "photos" "2016" = Val true.
Proof.
  assert (Hrun : ChangeDirectory "2016" (mkAzureFS account "photos") =
                 Done (mkAzureFS account "photos/2016", None))
    by reflexivity.
  split; [exact Hrun|].
  destruct (ChangeDirectory_checked "2016" (mkAzureFS account "photos")
              _ _ Hrun) as (_ & toks & Hall & Hdir & Hstore).
  cbn [currentRealDirectory] in Hdir.
  assert (Htoks : toks = segments "photos/2016").
  { rewrite Hdir. symmetry. by apply segments_Join. }
  subst toks. exact Hstore.
Defined.

End AzureRuns.
